(** * bsc-indexer: the ingestion / confirmation core

    A shallow embedding of [indexer.go] (the [Indexer] supervisor, the
    fetch workers, the confirmation worker and the query entry points) and
    of the [/blocks] handler of [apiservice.go].

    Conventions.
    - [uint64] values are integers in [0, 2^64); every arithmetic
      operation of the source that can leave this range is followed by
      [u64], its reduction modulo [2^64].
    - Go's [error] is the message it carries; [fmt.Errorf (p ++ "%v") e]
      is the concatenation of [p] and [e].
    - A Go function returning [(T, error)] returns a [result T].
    - The [Repository] interface is a type class over an abstract store;
      the chain [Client] is a record of the answers of the remote node.
    - Every call that leaves the process (store or chain) is recorded in
      the [calls] field of the state, in program order. *)

From Stdlib Require Import ZArith List String Ascii Bool Lia Sorted Relations.
Import ListNotations.
Local Open Scope string_scope.
Local Open Scope list_scope.
Local Open Scope Z_scope.

(** ** Machine integers *)

Definition u64 (z : Z) : Z := z mod 2 ^ 64.

(** [int(x)] for [x : uint64] and [uint64(x)] for [x : int], on a 64-bit
    platform. *)
Definition int_of_uint64 (z : Z) : Z := if z <? 2 ^ 63 then z else z - 2 ^ 64.
Definition uint64_of_int (z : Z) : Z := z mod 2 ^ 64.

(** ** Errors and results *)

Definition error := string.

Inductive result (A : Type) : Type :=
| Ok (a : A)
| Err (e : error).
Arguments Ok {A} a.
Arguments Err {A} e.

Definition Errorf (prefix : string) (err : error) : error :=
  String.append prefix err.

(** ** Constants of [indexer.go] *)

Definition ConfirmationNeeded : Z := 10.
Definition SecondPerBlock : Z := 3.
Definition IndexLimit : Z := 100.
Definition Interval : Z := 10.
Definition MaxWorker : nat := 3.

(** ** Data model *)

Record Block := mkBlock {
  Number : Z;
  Hash : string;
  Time : Z;
  ParentHash : string;
  Transactions : list string;
  Confirmed : bool
}.

Record Log := mkLog {
  Index : Z;
  LogData : string
}.

Record Transaction := mkTransaction {
  TxHash : string;
  From : string;
  To : string;
  Nonce : Z;
  Data : string;
  Value : Z;
  Logs : list Log;
  BlockHash : string
}.

(** ** The chain client *)

(** What [blockRaw] exposes to [fetchAndStoreBlock]: [NumberU64()],
    [Hash().String()], [Time()], [ParentHash().String()] and, for each
    element of [Transactions()], its [Hash().String()]. *)
Record RawBlock := mkRawBlock {
  rawNumber : Z;
  rawHash : string;
  rawTime : Z;
  rawParentHash : string;
  rawTransactions : list string
}.

Record RawTransaction := mkRawTransaction {
  rawFrom : string;
  rawTo : string;
  rawNonce : Z;
  rawData : string;
  rawValue : Z
}.

Record RawLog := mkRawLog {
  rawIndex : Z;
  rawLogData : list Z
}.

Record Receipt := mkReceipt {
  receiptLogs : list RawLog;
  receiptBlockHash : string
}.

Record Client := mkClient {
  GetBlockNumber : result Z;
  GetBlockByNumber : Z -> result RawBlock;
  GetTransactionByHash : string -> result RawTransaction;
  GetTransactionReceipt : string -> result Receipt
}.

(** ** The store *)

Class Repository (Store : Type) := {
  CreateBlock : Block -> Store -> option error * Store;
  CreateTransaction : Transaction -> Store -> option error * Store;
  FindBlock : Z -> Store -> result (option Block);
  FindTransaction : string -> Store -> result (option Transaction);
  GetLatestNumber : Store -> result Z;
  GetNewBlocks : Z -> Store -> list Block * option error;
  GetUnconfirmedBlocks : Store -> result (list Block);
  ConfirmBlocks : list Block -> Store -> option error * Store
}.

(** ** Calls that leave the process *)

Inductive Call :=
| ChainGetBlockNumber
| ChainGetBlockByNumber (number : Z)
| ChainGetTransactionByHash (hash : string)
| ChainGetTransactionReceipt (hash : string)
| RepoCreateBlock (b : Block)
| RepoCreateTransaction (t : Transaction)
| RepoFindBlock (number : Z)
| RepoFindTransaction (hash : string)
| RepoGetLatestNumber
| RepoGetNewBlocks (limit : Z)
| RepoGetUnconfirmedBlocks
| RepoConfirmBlocks (bs : list Block).

(** ** HTTP requests and answers of [apiservice.go] *)

Record Request := mkRequest {
  query : list (string * string)
}.

Inductive Body :=
| Message (m : string)
| BlocksBody (bs : list Block).

Record Response := mkResponse {
  status : Z;
  body : Body
}.

Definition StatusOK : Z := 200.
Definition StatusBadRequest : Z := 400.
Definition StatusInternalServerError : Z := 500.

(** [c.DefaultQuery(key, def)]: the first value of [key] in the query
    string when the key is present, [def] otherwise. *)
Definition DefaultQuery (key def : string) (c : Request) : string :=
  match find (fun kv => String.eqb (fst kv) key) (query c) with
  | Some kv => snd kv
  | None => def
  end.

(** Outcome of a worker's [for { select { ... } }] loop on a finite
    sequence of select outcomes: it has returned, or it is waiting for
    the next one. *)
Inductive WorkerStatus := Stopped | Running.

(** What the [select] of [FastWorker] delivers: a receive on [idx.jobs]
    ([ok = false] when the channel is closed), or [ctx.Done()]. *)
Inductive JobsSelect :=
| RecvJob (number : Z) (ok : bool)
| JobsCtxDone.


(** What the [select] of [Run] delivers: the ticker (with the outcomes of
    the polls of [ctx.Done()] made by the discovery pass it starts), a
    value received from [idx.errors], or [ctx.Done()]. *)
Inductive RunSelect :=
| RunTick (polls : list bool)
| RunError (err : error)
| RunCtxDone.

(** Requests with path parameters, and the answers of the handlers of
    [/blocks/:id] and [/transaction/:hash]. *)
Record PathRequest := mkPathRequest {
  params : list (string * string)
}.

Inductive Payload :=
| PayloadMessage (m : string)
| PayloadBlock (b : option Block)
| PayloadTransaction (t : Transaction).

Record Reply := mkReply {
  replyStatus : Z;
  replyBody : Payload
}.

Definition StatusNotFound : Z := 404.

(** [c.Param(key)]: the value of the path parameter, the empty string
    when there is none. *)
Definition Param (key : string) (c : PathRequest) : string :=
  match find (fun kv => String.eqb (fst kv) key) (params c) with
  | Some kv => snd kv
  | None => ""
  end.

(** The two values of a Go function returning a pointer and an error. *)
Definition goReturn {A : Type} (r : result A) : option A * option error :=
  match r with
  | Ok a => (Some a, None)
  | Err e => (None, Some e)
  end.

Section Indexer.

Context {Store : Type} `{Repository Store}.

(** [common.BytesToHash(b).String()] of go-ethereum and [strconv.Atoi]
    of the Go library. *)
Variable BytesToHashString : list Z -> string.
Variable Atoi : string -> result Z.

(** ** The [Indexer]

    [jobs] is the buffer of the [idx.jobs] channel and [jobsCap] its
    capacity; [senders] holds the goroutines started by [addJob] whose
    send has not completed yet, each with the number it sends;
    [errors] lists the values sent on [idx.errors], oldest first (a send
    that is never completed adds nothing to it). *)
Record Indexer := mkIndexer {
  ethClient : Client;
  repo : Store;
  jobs : list Z;
  jobsCap : nat;
  jobsClosed : bool;
  senders : list Z;
  errors : list error;
  currentLatest : Z;
  calls : list Call
}.

Definition NewIndexer (c : Client) (r : Store) : Indexer :=
  {| ethClient := c; repo := r;
     jobs := []; jobsCap := 1; jobsClosed := false; senders := [];
     errors := []; currentLatest := 0; calls := [] |}.

Definition set_repo (r : Store) (st : Indexer) : Indexer :=
  {| ethClient := ethClient st; repo := r;
     jobs := jobs st; jobsCap := jobsCap st; jobsClosed := jobsClosed st;
     senders := senders st; errors := errors st;
     currentLatest := currentLatest st; calls := calls st |}.

Definition set_jobs (q : list Z) (st : Indexer) : Indexer :=
  {| ethClient := ethClient st; repo := repo st;
     jobs := q; jobsCap := jobsCap st; jobsClosed := jobsClosed st;
     senders := senders st; errors := errors st;
     currentLatest := currentLatest st; calls := calls st |}.

Definition set_jobsClosed (b : bool) (st : Indexer) : Indexer :=
  {| ethClient := ethClient st; repo := repo st;
     jobs := jobs st; jobsCap := jobsCap st; jobsClosed := b;
     senders := senders st; errors := errors st;
     currentLatest := currentLatest st; calls := calls st |}.

Definition set_senders (l : list Z) (st : Indexer) : Indexer :=
  {| ethClient := ethClient st; repo := repo st;
     jobs := jobs st; jobsCap := jobsCap st; jobsClosed := jobsClosed st;
     senders := l; errors := errors st;
     currentLatest := currentLatest st; calls := calls st |}.

Definition set_errors (l : list error) (st : Indexer) : Indexer :=
  {| ethClient := ethClient st; repo := repo st;
     jobs := jobs st; jobsCap := jobsCap st; jobsClosed := jobsClosed st;
     senders := senders st; errors := l;
     currentLatest := currentLatest st; calls := calls st |}.

Definition set_currentLatest (n : Z) (st : Indexer) : Indexer :=
  {| ethClient := ethClient st; repo := repo st;
     jobs := jobs st; jobsCap := jobsCap st; jobsClosed := jobsClosed st;
     senders := senders st; errors := errors st;
     currentLatest := n; calls := calls st |}.

Definition set_calls (l : list Call) (st : Indexer) : Indexer :=
  {| ethClient := ethClient st; repo := repo st;
     jobs := jobs st; jobsCap := jobsCap st; jobsClosed := jobsClosed st;
     senders := senders st; errors := errors st;
     currentLatest := currentLatest st; calls := l |}.

(** ** A state monad over the [Indexer] *)

Definition M (A : Type) : Type := Indexer -> A * Indexer.

Definition ret {A : Type} (a : A) : M A := fun st => (a, st).

Definition bind {A B : Type} (m : M A) (f : A -> M B) : M B :=
  fun st => f (fst (m st)) (snd (m st)).

Notation "x <- m ;; k" := (bind m (fun x => k))
  (at level 61, m at next level, right associativity).
Notation "m ;;; k" := (bind m (fun _ => k))
  (at level 61, right associativity).

Definition gets {A : Type} (f : Indexer -> A) : M A := fun st => (f st, st).

Definition record (c : Call) : M unit :=
  fun st => (tt, set_calls (calls st ++ [c]) st).

(** [idx.errors <- e] in a worker goroutine ([FastWorker],
    [ConfirmWorker]): the send is completed by the receive of the
    [select] of [Run], and [e] joins the values sent on the channel. *)
Definition sendError (e : error) : M unit :=
  fun st => (tt, set_errors (errors st ++ [e]) st).

(** Calls on [idx.repo]. *)
Definition repoRead {A : Type} (c : Call) (f : Store -> A) : M A :=
  record c ;;; gets (fun st => f (repo st)).

Definition repoWrite (c : Call) (f : Store -> option error * Store)
  : M (option error) :=
  record c ;;;
  fun st => (fst (f (repo st)), set_repo (snd (f (repo st))) st).

(** Calls on a chain client. *)
Definition chainCall {A : Type} (c : Call) (answer : A) : M A :=
  record c ;;; ret answer.

(** ** Supervisor *)

(** How far a call made by the goroutine of [Run] gets.

    [idx.errors] is made without a buffer ([make(chan error)]) and the
    only receive on it is the [case err := <-idx.errors] of the [select]
    of [Run].  [updateLatestNumber] and [makeRoutineJobs] are called by
    [Run] from inside that [select]: a send [idx.errors <- e] they make
    has no receiver and never will, so the goroutine of [Run] is
    suspended in it for ever, in the state reached so far ([Blocked]);
    the value is never received.  [Diverges] is fuel exhaustion in a loop
    that need not end. *)
Inductive Outcome :=
| Returned (st : Indexer)
| Blocked (e : error) (st : Indexer)
| Diverges.

(** The state in which the call returns, if it does. *)
Definition returned (o : Outcome) : option Indexer :=
  match o with
  | Returned st => Some st
  | Blocked _ _ => None
  | Diverges => None
  end.

(** The state in which the call leaves the indexer, whether the
    goroutine has returned from it or is suspended in it for ever. *)
Definition reached (o : Outcome) : option Indexer :=
  match o with
  | Returned st => Some st
  | Blocked _ st => Some st
  | Diverges => None
  end.

Definition updateLatestNumber (st : Indexer) : Outcome :=
  let r := chainCall ChainGetBlockNumber (GetBlockNumber (ethClient st)) st in
  match fst r with
  | Err err =>
      Blocked (Errorf "failed to get latest number on chain, " err) (snd r)
  | Ok latest => Returned (set_currentLatest latest (snd r))
  end.

(** [go func() { idx.jobs <- n }()]: a new goroutine is started that
    will send [n]; the caller goes on at once. *)
Definition addJob (n : Z) (st : Indexer) : Indexer :=
  set_senders (senders st ++ [n]) st.

(** [close(idx.jobs)].  The call itself only marks the channel closed;
    what becomes of the goroutines of [addJob] whose send has not
    completed is [chan_panics] below. *)
Definition closeJobs (st : Indexer) : Indexer := set_jobsClosed true st.

(** The loop [for i := from; i <= idx.currentLatest; i++] of
    [makeRoutineJobs].  [polls] gives the outcomes of the successive
    non-blocking polls of [ctx.Done()] ([true]: cancelled; past its
    end: not cancelled).  The loop need not end (when
    [idx.currentLatest] is the largest [uint64]), hence the fuel;
    [None] is fuel exhaustion. *)
Fixpoint addJobsLoop (fuel : nat) (polls : list bool) (i : Z)
         (st : Indexer) : option Indexer :=
  match fuel with
  | O => None
  | S fuel' =>
      if i <=? currentLatest st then
        match polls with
        | true :: _ => Some (closeJobs st)
        | _ => addJobsLoop fuel' (tl polls) (u64 (i + 1)) (addJob i st)
        end
      else Some st
  end.

(** The body of [makeRoutineJobs], with the three ways it can go. *)
Definition makeRoutineJobsOutcome (fuel : nat) (polls : list bool)
           (st : Indexer) : Outcome :=
  if (0 <? Z.of_nat (List.length (jobs st))) then Returned st
  else
    let r := repoRead RepoGetLatestNumber GetLatestNumber st in
    match fst r with
    | Err err =>
        Blocked (Errorf "failed to get latest number in DB, " err) (snd r)
    | Ok repoLatest =>
        let from :=
          if repoLatest =? 0
          then u64 (currentLatest (snd r) - IndexLimit)
          else u64 (repoLatest + 1) in
        match addJobsLoop fuel polls from (snd r) with
        | Some st' => Returned st'
        | None => Diverges
        end
    end.

(** [makeRoutineJobs]: the state in which the call returns; [None] when
    it does not return (within this fuel). *)
Definition makeRoutineJobs (fuel : nat) (polls : list bool)
           (st : Indexer) : option Indexer :=
  returned (makeRoutineJobsOutcome fuel polls st).

(** ** The channel [idx.jobs] between the goroutines

    A goroutine started by [addJob] completes its send when the buffer
    has room; a worker receives the oldest buffered number. *)
Inductive chan_step : Indexer -> Indexer -> Prop :=
| sender_completes st l1 n l2 :
    senders st = l1 ++ n :: l2 ->
    (List.length (jobs st) < jobsCap st)%nat ->
    jobsClosed st = false ->
    chan_step st (set_senders (l1 ++ l2) (set_jobs (jobs st ++ [n]) st))
| worker_receives st n rest :
    jobs st = n :: rest ->
    chan_step st (set_jobs rest st).


(** ** Fetch workers *)

Definition fetchAndStoreBlock (client : Client) (number : Z)
  : M (option error) :=
  r <- chainCall (ChainGetBlockByNumber number)
                 (GetBlockByNumber client number) ;;
  match r with
  | Err err => ret (Some (Errorf "[FastWorker] failed to get block, " err))
  | Ok blockRaw =>
      (* [err] is the (nil) error of the fetch above *)
      let err : option error := None in
      let hashes := map (fun transaction => transaction)
                        (rawTransactions blockRaw) in
      let blockModel :=
        {| Number := rawNumber blockRaw;
           Hash := rawHash blockRaw;
           Time := rawTime blockRaw;
           ParentHash := rawParentHash blockRaw;
           Transactions := hashes;
           Confirmed := false |} in
      (* [_ = idx.repo.CreateBlock(blockModel)] *)
      _ <- repoWrite (RepoCreateBlock blockModel) (CreateBlock blockModel) ;;
      match err with
      | Some e => ret (Some e)
      | None => ret None
      end
  end.

Fixpoint FastWorkerLoop (client : Client) (evs : list JobsSelect)
  : M WorkerStatus :=
  match evs with
  | [] => ret Running
  | RecvJob number ok :: evs' =>
      if negb ok then ret Stopped
      else
        err <- fetchAndStoreBlock client number ;;
        match err with
        | Some e =>
            sendError
              (Errorf "[FastWorker] failed to fetch block and store, " e)
        | None => ret tt
        end ;;;
        FastWorkerLoop client evs'
  | JobsCtxDone :: _ => ret Stopped
  end.

Definition FastWorker (newClient : result Client) (evs : list JobsSelect)
  : M WorkerStatus :=
  match newClient with
  | Err err =>
      sendError (Errorf "[FastWorker] failed to create Client, " err) ;;;
      ret Stopped
  | Ok client => FastWorkerLoop client evs
  end.

(** ** Confirmation worker *)

(** The loop [for i := 0; i < len(blocks)-1; i++]; [n] counts the
    iterations left, [len(blocks)-1-i]. *)
Fixpoint validateLoop (n : nat) (i : nat) (blocks : list Block) (to : Z)
         (validatedBlocks : list Block) : list Block :=
  match n with
  | O => validatedBlocks
  | S n' =>
      match nth_error blocks i, nth_error blocks (i + 1) with
      | Some bi, Some bi1 =>
          if Number bi >=? uint64_of_int to then validatedBlocks
          else if negb (String.eqb (Hash bi) (ParentHash bi1))
               then validatedBlocks
               else validateLoop n' (i + 1) blocks to
                                 (validatedBlocks ++ [bi])
      | _, _ => validatedBlocks
      end
  end.

(** One firing of the ticker case.  [Stopped] is [return], [Running]
    is falling through (or [continue]) to the next [select]. *)
Definition confirmPass : M WorkerStatus :=
  r <- repoRead RepoGetUnconfirmedBlocks GetUnconfirmedBlocks ;;
  match r with
  | Err err =>
      sendError
        (Errorf "failed to get unconfirmed blocks ConfirmWorker, " err) ;;;
      ret Stopped
  | Ok blocks =>
      if (List.length blocks <? 2)%nat then ret Running
      else
        latest <- gets currentLatest ;;
        let to := int_of_uint64 (u64 (latest - ConfirmationNeeded)) in
        let validatedBlocks :=
          validateLoop (List.length blocks - 1) 0 blocks to [] in
        err <- repoWrite (RepoConfirmBlocks validatedBlocks)
                         (ConfirmBlocks validatedBlocks) ;;
        match err with
        | Some e =>
            sendError
              (Errorf "[ConfirmWorker] failed to confirm blocks, " e) ;;;
            ret Stopped
        | None => ret Running
        end
  end.



(** ** Query entry points *)

Definition clearTransactions (b : Block) : Block :=
  {| Number := Number b; Hash := Hash b; Time := Time b;
     ParentHash := ParentHash b; Transactions := [];
     Confirmed := Confirmed b |}.

Definition IndexerGetNewBlocks (limit : Z) : M (list Block * option error) :=
  r <- repoRead (RepoGetNewBlocks limit) (GetNewBlocks limit) ;;
  ret (map clearTransactions (fst r), snd r).

Definition GetTransaction (hash : string) : M (result Transaction) :=
  r <- repoRead (RepoFindTransaction hash) (FindTransaction hash) ;;
  match r with
  | Err err => ret (Err (Errorf "failed to FindTransaction, " err))
  | Ok None =>
      client <- gets ethClient ;;
      rtx <- chainCall (ChainGetTransactionByHash hash)
                       (GetTransactionByHash client hash) ;;
      match rtx with
      | Err err =>
          ret (Err (Errorf "failed to get transaction from chain, " err))
      | Ok tx =>
          rrc <- chainCall (ChainGetTransactionReceipt hash)
                           (GetTransactionReceipt client hash) ;;
          match rrc with
          | Err err =>
              ret (Err (Errorf
                          "failed to get transaction receipt from chain, "
                          err))
          | Ok txReceipt =>
              let logs :=
                map (fun l =>
                       {| Index := rawIndex l;
                          LogData := BytesToHashString (rawLogData l) |})
                    (receiptLogs txReceipt) in
              let t :=
                {| TxHash := hash;
                   From := rawFrom tx;
                   To := rawTo tx;
                   Nonce := rawNonce tx;
                   Data := rawData tx;
                   Value := rawValue tx;
                   Logs := logs;
                   BlockHash := receiptBlockHash txReceipt |} in
              err <- repoWrite (RepoCreateTransaction t)
                               (CreateTransaction t) ;;
              match err with
              | Some e =>
                  ret (Err (Errorf
                              "failed to store transaction to repo, " e))
              | None => ret (Ok t)
              end
          end
      end
  | Ok (Some tx) => ret (Ok tx)
  end.

(** ** [GET /blocks] *)

Definition blocksHandler (c : Request) : M Response :=
  let limitRaw := DefaultQuery "limit" "1" c in
  match Atoi limitRaw with
  | Err _ =>
      ret {| status := StatusBadRequest;
             body := Message "limit must be a number and between 1 and 10" |}
  | Ok limit =>
      if (limit <? 1) || (limit >? 10) then
        ret {| status := StatusBadRequest;
               body :=
                 Message "limit must be a number and between 1 and 10" |}
      else
        r <- IndexerGetNewBlocks limit ;;
        match snd r with
        | Some err =>
            ret {| status := StatusInternalServerError;
                   body := Message (Errorf "error: " err) |}
        | None =>
            ret {| status := StatusOK; body := BlocksBody (fst r) |}
        end
  end.

(** ** The loop of [Run]

    The [for { select { ... } }] of [Run], on a finite sequence of select
    outcomes.  The ticker case refreshes the height and, once that call
    has returned, runs a discovery pass; an error received from
    [idx.errors] (sent by a worker) is logged; [ctx.Done()] returns.
    When a call of the ticker case is suspended in a send, the loop is
    suspended with it and serves nothing more: it has not returned
    ([Running]) and never will.  [None] is fuel exhaustion in a discovery
    pass. *)
Definition tickOutcome (fuel : nat) (polls : list bool) (st : Indexer)
  : Outcome :=
  match updateLatestNumber st with
  | Returned st1 => makeRoutineJobsOutcome fuel polls st1
  | Blocked e st1 => Blocked e st1
  | Diverges => Diverges
  end.

(** The state in which one firing of the ticker leaves the indexer. *)
Definition supervisorTick (fuel : nat) (polls : list bool) (st : Indexer)
  : option Indexer :=
  reached (tickOutcome fuel polls st).

Fixpoint RunLoop (fuel : nat) (evs : list RunSelect) (st : Indexer)
  : option (WorkerStatus * Indexer) :=
  match evs with
  | [] => Some (Running, st)
  | RunTick polls :: evs' =>
      match tickOutcome fuel polls st with
      | Returned st' => RunLoop fuel evs' st'
      | Blocked _ st' => Some (Running, st')
      | Diverges => None
      end
  | RunError _ :: evs' => RunLoop fuel evs' st
  | RunCtxDone :: _ => Some (Stopped, st)
  end.

(** ** [GetBlock], [GET /blocks/:id] and [GET /transaction/:hash] *)

Definition IndexerGetBlock (number : Z) : M (result (option Block)) :=
  r <- repoRead (RepoFindBlock number) (FindBlock number) ;;
  match r with
  | Err err => ret (Err (Errorf "failed to get block from repo, " err))
  | Ok block => ret (Ok block)
  end.

Definition blockHandler (c : PathRequest) : M Reply :=
  let idRaw := Param "id" c in
  match Atoi idRaw with
  | Err _ =>
      ret {| replyStatus := StatusBadRequest;
             replyBody := PayloadMessage "invalid ID" |}
  | Ok id =>
      if id <? 0 then
        ret {| replyStatus := StatusBadRequest;
               replyBody := PayloadMessage "invalid ID" |}
      else
        r <- IndexerGetBlock (uint64_of_int id) ;;
        match r with
        | Err err =>
            ret {| replyStatus := StatusInternalServerError;
                   replyBody := PayloadMessage (Errorf "error: " err) |}
        | Ok block =>
            ret {| replyStatus := StatusOK; replyBody := PayloadBlock block |}
        end
  end.

Definition transactionHandler (c : PathRequest) : M Reply :=
  let hash := Param "hash" c in
  r <- GetTransaction hash ;;
  match snd (goReturn r) with
  | Some err =>
      ret {| replyStatus := StatusInternalServerError;
             replyBody := PayloadMessage (Errorf "error: " err) |}
  | None =>
      match fst (goReturn r) with
      | None =>
          ret {| replyStatus := StatusNotFound;
                 replyBody := PayloadMessage "transaction not found" |}
      | Some tx =>
          ret {| replyStatus := StatusOK; replyBody := PayloadTransaction tx |}
      end
  end.

End Indexer.

Arguments Indexer Store : clear implicits.
Arguments M Store A : clear implicits.
Arguments Outcome Store : clear implicits.

(** ** A reference store

    An in-memory store that honours the contract the indexer expects of a
    [Repository]: block numbers and transaction hashes are primary keys (a
    second insert under the same key is refused), blocks are kept in
    ascending order of number, and a store opened read-only refuses every
    write.  It is used to run the indexer on concrete inputs. *)

Record MemStore := mkMemStore {
  memBlocks : list Block;
  memTransactions : list Transaction;
  memReadOnly : bool
}.

Fixpoint insertBlock (b : Block) (l : list Block) : list Block :=
  match l with
  | [] => [b]
  | x :: l' => if Number b <? Number x then b :: l else x :: insertBlock b l'
  end.

Definition hasNumber (n : Z) (l : list Block) : bool :=
  existsb (fun b => Number b =? n) l.

Definition markConfirmed (b : Block) : Block :=
  {| Number := Number b; Hash := Hash b; Time := Time b;
     ParentHash := ParentHash b; Transactions := Transactions b;
     Confirmed := true |}.

Definition memCreateBlock (b : Block) (s : MemStore)
  : option error * MemStore :=
  if memReadOnly s || hasNumber (Number b) (memBlocks s)
  then (Some "failed to create MySQL record", s)
  else (None, {| memBlocks := insertBlock b (memBlocks s);
                 memTransactions := memTransactions s;
                 memReadOnly := memReadOnly s |}).

Definition memCreateTransaction (t : Transaction) (s : MemStore)
  : option error * MemStore :=
  if memReadOnly s
     || existsb (fun x => String.eqb (TxHash x) (TxHash t))
                (memTransactions s)
  then (Some "duplicate entry or read-only store", s)
  else (None, {| memBlocks := memBlocks s;
                 memTransactions := memTransactions s ++ [t];
                 memReadOnly := memReadOnly s |}).

Definition memConfirmBlocks (bs : list Block) (s : MemStore)
  : option error * MemStore :=
  if memReadOnly s then (Some "read-only store", s)
  else (None,
        {| memBlocks :=
             map (fun b => if hasNumber (Number b) bs
                           then markConfirmed b else b)
                 (memBlocks s);
           memTransactions := memTransactions s;
           memReadOnly := memReadOnly s |}).

#[export] Instance MemRepository : Repository MemStore := {
  CreateBlock := memCreateBlock;
  CreateTransaction := memCreateTransaction;
  FindBlock n s := Ok (find (fun b => Number b =? n) (memBlocks s));
  FindTransaction h s :=
    Ok (find (fun t => String.eqb (TxHash t) h) (memTransactions s));
  GetLatestNumber s := Ok (Number (last (memBlocks s) (mkBlock 0 "" 0 "" [] false)));
  GetNewBlocks limit s := (firstn (Z.to_nat limit) (rev (memBlocks s)), None);
  GetUnconfirmedBlocks s :=
    Ok (filter (fun b => negb (Confirmed b)) (memBlocks s));
  ConfirmBlocks := memConfirmBlocks
}.

Definition emptyStore : MemStore :=
  {| memBlocks := []; memTransactions := []; memReadOnly := false |}.

(** ** A decimal reading of [strconv.Atoi]

    An optional sign followed by one or more decimal digits, within the
    range of a 64-bit [int]. *)

Definition digitOf (c : ascii) : option Z :=
  let n := Z.of_nat (nat_of_ascii c) in
  if (48 <=? n) && (n <=? 57) then Some (n - 48) else None.

Fixpoint parseDigits (acc : Z) (s : string) : option Z :=
  match s with
  | EmptyString => Some acc
  | String c rest =>
      match digitOf c with
      | Some d => parseDigits (10 * acc + d) rest
      | None => None
      end
  end.

Definition decimalAtoi (s : string) : result Z :=
  let signed (neg : bool) (ds : string) : result Z :=
    match ds with
    | EmptyString => Err "invalid syntax"
    | _ =>
        match parseDigits 0 ds with
        | None => Err "invalid syntax"
        | Some n =>
            let v := if neg then - n else n in
            if (- 2 ^ 63 <=? v) && (v <? 2 ^ 63) then Ok v
            else Err "value out of range"
        end
    end in
  match s with
  | String "-" rest => signed true rest
  | String "+" rest => signed false rest
  | _ => signed false s
  end.

(** [common.BytesToHash(b).String()] is not interpreted: concrete runs
    use a constant rendering. *)
Definition opaqueHash (_ : list Z) : string := "0x".

(** ** Ranges of block numbers *)

(** The numbers [from], [from + 1], ..., [to], in this order; empty when
    [to < from]. *)
Definition numbersFromTo (from to : Z) : list Z :=
  map (fun k => from + Z.of_nat k) (seq 0 (Z.to_nat (to - from + 1))).

(** The first number of a pass, as [makeRoutineJobs] computes it. *)
Definition firstNumber (repoLatest chainHeight : Z) : Z :=
  if repoLatest =? 0 then u64 (chainHeight - IndexLimit)
  else u64 (repoLatest + 1).

(** The range of a discovery pass as the specification words it:
    [from = max(storeLatest+1, chainHeight - INDEX_LIMIT)] when the store
    is empty, [from = storeLatest + 1] otherwise. *)
Definition scheduleNextRange_spec (storeLatest chainHeight : Z) : list Z :=
  let from :=
    if storeLatest =? 0
    then Z.max (storeLatest + 1) (chainHeight - IndexLimit)
    else storeLatest + 1 in
  numbersFromTo from chainHeight.

(** ** Concrete nodes, stores and supervisors *)

Definition nodeAt (height : Z) : Client :=
  {| GetBlockNumber := Ok height;
     GetBlockByNumber := fun _ => Err "not found";
     GetTransactionByHash := fun _ => Err "not found";
     GetTransactionReceipt := fun _ => Err "not found" |}.

Definition deadNode : Client :=
  {| GetBlockNumber := Err "connection refused";
     GetBlockByNumber := fun _ => Err "connection refused";
     GetTransactionByHash := fun _ => Err "connection refused";
     GetTransactionReceipt := fun _ => Err "connection refused" |}.

(** A supervisor whose last refresh saw [height]. *)
Definition supervisorAt (height : Z) (s : MemStore) : Indexer MemStore :=
  set_currentLatest height (NewIndexer (nodeAt height) s).

Definition storeWith (bs : list Block) : MemStore :=
  {| memBlocks := bs; memTransactions := []; memReadOnly := false |}.

Definition block450 : Block := mkBlock 450 "h450" 1 "h449" [] false.

(** The enqueue as the specification words it: a send performed by the
    caller itself, which waits ([None]) while the queue is full. *)
Definition addJob_spec {Store : Type} (n : Z) (st : Indexer Store)
  : option (Indexer Store) :=
  if (List.length (jobs st) <? jobsCap st)%nat
  then Some (set_jobs (jobs st ++ [n]) st)
  else None.

(** What can happen to the work queue: a goroutine completes its send, a
    worker receives, or the supervisor runs a discovery pass. *)
Inductive queue_step {Store : Type} `{Repository Store}
  : Indexer Store -> Indexer Store -> Prop :=
| step_chan st st' :
    chan_step st st' -> queue_step st st'
| step_discovery fuel polls st st' :
    makeRoutineJobs fuel polls st = Some st' -> queue_step st st'.

(** The calls made after a state whose calls were [before]. *)
Definition callsSince (before after : list Call) : list Call :=
  skipn (List.length before) after.

(** The blocks handed to [ConfirmBlocks] by a sequence of calls. *)
Fixpoint promotedIn (cs : list Call) : list Block :=
  match cs with
  | [] => []
  | RepoConfirmBlocks bs :: cs' => bs ++ promotedIn cs'
  | _ :: cs' => promotedIn cs'
  end.

(** The boundary and the validated blocks of a confirmation pass that
    read [blocks] while the known height was [latest]. *)
Definition safeBoundary (latest : Z) : Z := u64 (latest - ConfirmationNeeded).

Definition validatedBlocksOf (latest : Z) (blocks : list Block) : list Block :=
  validateLoop (List.length blocks - 1) 0 blocks
               (int_of_uint64 (u64 (latest - ConfirmationNeeded))) [].

(** Blocks 10, 11 and 12, the last one not linked to block 11. *)
Definition block10 : Block := mkBlock 10 "h10" 100 "p9" [] false.
Definition block11 : Block := mkBlock 11 "h11" 103 "h10" [] false.
Definition block12 : Block := mkBlock 12 "h12" 106 "h10" [] false.


(** A node that serves one block and one transaction. *)
Definition rawBlock7 : RawBlock := mkRawBlock 7 "h7" 70 "h6" ["t1"; "t2"].
Definition block7 : Block := mkBlock 7 "h7" 70 "h6" ["t1"; "t2"] false.

Definition rawTxA : RawTransaction := mkRawTransaction "alice" "bob" 3 "0x00" 42.
Definition receiptA : Receipt :=
  mkReceipt [mkRawLog 0 [1; 2]; mkRawLog 1 []] "h7".
Definition txA : Transaction :=
  mkTransaction "t1" "alice" "bob" 3 "0x00" 42
                [mkLog 0 "0x"; mkLog 1 "0x"] "h7".

Definition node7 : Client :=
  {| GetBlockNumber := Ok 7;
     GetBlockByNumber :=
       fun n => if n =? 7 then Ok rawBlock7 else Err "not found";
     GetTransactionByHash :=
       fun h => if String.eqb h "t1" then Ok rawTxA else Err "not found";
     GetTransactionReceipt :=
       fun h => if String.eqb h "t1" then Ok receiptA else Err "not found" |}.

(** The blocks [j] and [j + 1] exist, block [j] is below the boundary and
    block [j + 1] names it as its parent. *)
Definition linkedAt (boundary : Z) (blocks : list Block) (j : nat) : Prop :=
  exists bj bj1,
    nth_error blocks j = Some bj /\ nth_error blocks (S j) = Some bj1 /\
    Number bj < boundary /\ Hash bj = ParentHash bj1.

(** The blocks [j] and [j + 1] exist and the walk stops at [j]: block [j]
    is at or above the boundary, or block [j + 1] does not name it as its
    parent. *)
Definition stopsAt (boundary : Z) (blocks : list Block) (j : nat) : Prop :=
  exists bj bj1,
    nth_error blocks j = Some bj /\ nth_error blocks (S j) = Some bj1 /\
    (Number bj >= boundary \/ Hash bj <> ParentHash bj1).

(** Scenarios. *)
Definition scenarioA : Indexer MemStore := supervisorAt 500 emptyStore.
Definition scenarioB : Indexer MemStore :=
  supervisorAt 500 (storeWith [block450]).
Definition bootstrapAt100 : Indexer MemStore := supervisorAt 100 emptyStore.
Definition scenarioC : Indexer MemStore :=
  supervisorAt 21 (storeWith [block10; block11; block12]).
Definition scenarioCdeep : Indexer MemStore :=
  supervisorAt 121 (storeWith [block10; block11; block12]).
Definition duplicate7 : Indexer MemStore :=
  NewIndexer node7 (storeWith [block7]).
Definition scenarioD : Indexer MemStore := NewIndexer node7 emptyStore.

(** The state a live discovery pass leaves (200 iterations suffice for
    the scenarios). *)
Definition afterDiscovery (st : Indexer MemStore) : Indexer MemStore :=
  match makeRoutineJobs 200 [] st with
  | Some st' => st'
  | None => st
  end.

(** ** The in-memory store of the first version

    [InMemoryStore.blocks] is a Go map from block number to block; it is
    kept as a list of entries with distinct keys.  [block.NumberU64()] is
    [rawNumber]. *)
Module InMemoryStore.

Definition t : Type := list (Z * RawBlock).

Fixpoint mapGet (k : Z) (m : t) : option RawBlock :=
  match m with
  | [] => None
  | (k', v) :: m' => if k' =? k then Some v else mapGet k m'
  end.

Fixpoint mapSet (k : Z) (v : RawBlock) (m : t) : t :=
  match m with
  | [] => [(k, v)]
  | (k', v') :: m' =>
      if k' =? k then (k, v) :: m' else (k', v') :: mapSet k v m'
  end.

Definition NewInMemoryStore : t := [].

Definition GetBlock (number : Z) (s : t) : option RawBlock :=
  match mapGet number s with
  | None => None
  | Some block => Some block
  end.

Definition StoreBlock (block : RawBlock) (s : t) : option error * t :=
  (None, mapSet (rawNumber block) block s).

(** [len(s.blocks)] *)
Definition len (s : t) : nat := List.length s.

End InMemoryStore.

(** ** What a fetch worker is expected to send and to call

    For the job numbers [ns] served in this order by a worker that uses
    [client]: one error per number whose fetch fails, and for each number
    the fetch, followed by [CreateBlock] when the fetch succeeded. *)
Definition blockOfRaw (blockRaw : RawBlock) : Block :=
  {| Number := rawNumber blockRaw; Hash := rawHash blockRaw;
     Time := rawTime blockRaw; ParentHash := rawParentHash blockRaw;
     Transactions := rawTransactions blockRaw; Confirmed := false |}.



(** The jobs [ns], each received with [ok = true]. *)
Definition received (ns : list Z) : list JobsSelect :=
  map (fun n => RecvJob n true) ns.

(** More concrete runs. *)
Definition scenarioShortChain : Indexer MemStore := supervisorAt 50 emptyStore.
Definition scenarioLastHeight : Indexer MemStore :=
  supervisorAt (2 ^ 64 - 1) (storeWith [block450]).
Definition scenarioStale : Indexer MemStore :=
  set_currentLatest 500 (NewIndexer deadNode (storeWith [block450])).
Definition linked10 : Block := mkBlock 10 "h10" 100 "h9" [] false.
Definition linked11 : Block := mkBlock 11 "h11" 103 "h10" [] false.
Definition linked12 : Block := mkBlock 12 "h12" 106 "h11" [] false.
Definition scenarioLinked : Indexer MemStore :=
  supervisorAt 100 (storeWith [linked10; linked11; linked12]).
Definition scenarioUnknownHeight : Indexer MemStore :=
  NewIndexer deadNode (storeWith [linked10; linked11; linked12]).
Definition scenarioTooRecent : Indexer MemStore :=
  supervisorAt 15 (storeWith [linked10; linked11; linked12]).

(** A store that cannot be read. *)
Record DownStore := mkDownStore { downReason : error }.

#[export] Instance DownRepository : Repository DownStore := {
  CreateBlock _ s := (Some (downReason s), s);
  CreateTransaction _ s := (Some (downReason s), s);
  FindBlock _ s := Err (downReason s);
  FindTransaction _ s := Err (downReason s);
  GetLatestNumber s := Err (downReason s);
  GetNewBlocks _ s := ([], Some (downReason s));
  GetUnconfirmedBlocks s := Err (downReason s);
  ConfirmBlocks _ s := (Some (downReason s), s)
}.

Definition scenarioDown : Indexer DownStore :=
  set_currentLatest 500 (NewIndexer (nodeAt 500) (mkDownStore "db is down")).

(** A node that serves transaction ["t1"] but not its receipt. *)
Definition nodeNoReceipt : Client :=
  {| GetBlockNumber := Ok 7;
     GetBlockByNumber := fun _ => Err "not found";
     GetTransactionByHash :=
       fun h => if String.eqb h "t1" then Ok rawTxA else Err "not found";
     GetTransactionReceipt := fun _ => Err "not found" |}.

Definition scenarioOffline : Indexer MemStore := NewIndexer deadNode emptyStore.
Definition scenarioNoReceipt : Indexer MemStore :=
  NewIndexer nodeNoReceipt emptyStore.
Definition scenarioCached : Indexer MemStore :=
  NewIndexer deadNode
    {| memBlocks := []; memTransactions := [txA]; memReadOnly := false |}.

(** The walk of a confirmation pass as the specification words it: over
    the consecutive pairs [(b[i], b[i+1])], from the lowest number, stop
    at the first [i] with [b[i].number >= safeBoundary] or
    [b[i].hash <> b[i+1].parentHash] and keep the blocks before it;
    [safeBoundary = currentChainHeight - CONFIRMATION_DEPTH], an integer,
    negative while the height is below the depth; fewer than two blocks:
    nothing is promoted. *)
Fixpoint validatedPrefix_spec (boundary : Z) (blocks : list Block)
  : list Block :=
  match blocks with
  | b :: ((b' :: _) as rest) =>
      if (Number b >=? boundary)
         || negb (String.eqb (Hash b) (ParentHash b'))
      then []
      else b :: validatedPrefix_spec boundary rest
  | _ => []
  end.

Definition confirmationPass_spec (currentChainHeight : Z)
           (blocks : list Block) : list Block :=
  if (List.length blocks <? 2)%nat then []
  else validatedPrefix_spec (currentChainHeight - ConfirmationNeeded) blocks.

(** The contract of [ConfirmBlocks] that a confirmation pass relies on: a
    block that was unconfirmed, and whose number is not the number of a
    block handed over, is still unconfirmed afterwards. *)
Definition confirmsOnlyListed {Store : Type} `{Repository Store}
           (s : Store) : Prop :=
  forall (blocks vs : list Block) (b : Block),
    GetUnconfirmedBlocks s = Ok blocks ->
    In b blocks ->
    ~ In (Number b) (map Number vs) ->
    exists after : list Block,
      GetUnconfirmedBlocks (snd (ConfirmBlocks vs s)) = Ok after /\
      In b after.

(** A store whose only block is confirmed. *)
Definition confirmed10 : Block := mkBlock 10 "h10" 100 "p9" [] true.
Definition scenarioAllConfirmed : Indexer MemStore :=
  supervisorAt 21 (storeWith [confirmed10]).

(** * Properties *)

(** ** Machine integers *)

Lemma u64_small (z : Z) : 0 <= z < 2 ^ 64 -> u64 z = z.
Proof. intros Hz. unfold u64. apply Z.mod_small. exact Hz. Qed.

Lemma uint64_of_int_of_uint64 (z : Z) :
  0 <= z < 2 ^ 64 -> uint64_of_int (int_of_uint64 z) = z.
Proof.
  intros Hz. unfold uint64_of_int, int_of_uint64.
  destruct (z <? 2 ^ 63) eqn:E.
  - apply Z.mod_small. exact Hz.
  - replace (z - 2 ^ 64) with (z + (-1) * 2 ^ 64) by ring.
    rewrite Z.mod_add by lia. apply Z.mod_small. exact Hz.
Qed.

Lemma u64_range (z : Z) : 0 <= u64 z < 2 ^ 64.
Proof. unfold u64. apply Z.mod_pos_bound. lia. Qed.

(** ** Ranges *)

Lemma numbersFromTo_empty (from to : Z) :
  to < from -> numbersFromTo from to = [].
Proof.
  intros Hlt. unfold numbersFromTo.
  replace (Z.to_nat (to - from + 1)) with O by lia. reflexivity.
Qed.

Lemma numbersFromTo_cons (from to : Z) :
  from <= to -> numbersFromTo from to = from :: numbersFromTo (from + 1) to.
Proof.
  intros Hle. unfold numbersFromTo.
  replace (Z.to_nat (to - from + 1))
    with (S (Z.to_nat (to - (from + 1) + 1))) by lia.
  cbn [seq map]. f_equal; [lia|].
  rewrite <- seq_shift, map_map. apply map_ext. intros k. lia.
Qed.

Lemma numbersFromTo_length (from to : Z) :
  from <= to + 1 ->
  Z.of_nat (List.length (numbersFromTo from to)) = to - from + 1.
Proof.
  intros Hle. unfold numbersFromTo.
  rewrite length_map, length_seq. lia.
Qed.

Lemma In_numbersFromTo (from to x : Z) :
  In x (numbersFromTo from to) <-> from <= x <= to.
Proof.
  unfold numbersFromTo. rewrite in_map_iff. split.
  - intros [k [Hk Hin]]. apply in_seq in Hin. lia.
  - intros Hx. exists (Z.to_nat (x - from)). split; [lia|].
    apply in_seq. lia.
Qed.

Section IndexerProperties.

Context {Store : Type} `{Repository Store}.

Variable BytesToHashString : list Z -> string.
Variable Atoi : string -> result Z.

Ltac run :=
  unfold repoRead, repoWrite, chainCall;
  unfold bind, ret, gets, record, sendError;
  cbn [fst snd].

(** ** Supervisor *)

Lemma set_senders_same (st : Indexer Store) : set_senders (senders st) st = st.
Proof. destruct st; reflexivity. Qed.

Lemma addJobsLoop_stop (fuel : nat) (polls : list bool) (i : Z) (st : Indexer Store) :
  currentLatest st < i -> addJobsLoop (S fuel) polls i st = Some st.
Proof.
  intros Hlt. cbn [addJobsLoop].
  destruct (i <=? currentLatest st) eqn:E; [lia | reflexivity].
Qed.

(** With a live context the loop starts one sender per number of
    [i .. currentLatest], lowest first, and ends, provided
    [currentLatest] is not the largest [uint64]. *)
Lemma addJobsLoop_live (n : nat) :
  forall (fuel : nat) (i : Z) (st : Indexer Store),
    0 <= i ->
    currentLatest st < 2 ^ 64 - 1 ->
    Z.of_nat n = currentLatest st - i + 1 ->
    (n < fuel)%nat ->
    addJobsLoop fuel [] i st =
    Some (set_senders (senders st ++ numbersFromTo i (currentLatest st)) st).
Proof.
  induction n as [|n IH]; intros fuel i st Hi Hmax Hn Hfuel.
  - destruct fuel as [|fuel]; [lia|].
    rewrite addJobsLoop_stop by lia.
    rewrite numbersFromTo_empty by lia.
    rewrite app_nil_r, set_senders_same. reflexivity.
  - destruct fuel as [|fuel]; [lia|].
    cbn [addJobsLoop tl].
    destruct (i <=? currentLatest st) eqn:E; [|lia].
    rewrite u64_small by lia.
    rewrite IH; cbn [addJob set_senders currentLatest senders]; try lia.
    rewrite (numbersFromTo_cons i) by lia.
    rewrite <- app_assoc. reflexivity.
Qed.


(** The three ways of a discovery pass. *)
Lemma makeRoutineJobsOutcome_busy (fuel : nat) (polls : list bool)
      (st : Indexer Store) :
  jobs st <> [] -> makeRoutineJobsOutcome fuel polls st = Returned st.
Proof.
  intros Hne. unfold makeRoutineJobsOutcome.
  destruct (jobs st) as [|j q]; [congruence|]. reflexivity.
Qed.

Lemma makeRoutineJobsOutcome_read (fuel : nat) (polls : list bool)
      (st : Indexer Store) (repoLatest : Z) :
  jobs st = [] ->
  GetLatestNumber (repo st) = Ok repoLatest ->
  makeRoutineJobsOutcome fuel polls st =
  match addJobsLoop fuel polls (firstNumber repoLatest (currentLatest st))
                    (set_calls (calls st ++ [RepoGetLatestNumber]) st) with
  | Some st' => Returned st'
  | None => Diverges
  end.
Proof.
  intros Hq Hrepo. unfold makeRoutineJobsOutcome. rewrite Hq.
  cbn [List.length Z.of_nat Z.ltb Z.compare].
  run. cbn [set_calls repo currentLatest]. rewrite Hrepo. reflexivity.
Qed.

Lemma makeRoutineJobsOutcome_unread (fuel : nat) (polls : list bool)
      (st : Indexer Store) (err : error) :
  jobs st = [] ->
  GetLatestNumber (repo st) = Err err ->
  makeRoutineJobsOutcome fuel polls st =
  Blocked (Errorf "failed to get latest number in DB, " err)
          (set_calls (calls st ++ [RepoGetLatestNumber]) st).
Proof.
  intros Hq Hrepo. unfold makeRoutineJobsOutcome. rewrite Hq.
  cbn [List.length Z.of_nat Z.ltb Z.compare].
  run. cbn [set_calls repo currentLatest]. rewrite Hrepo. reflexivity.
Qed.

Lemma makeRoutineJobs_read (fuel : nat) (polls : list bool)
      (st : Indexer Store) (repoLatest : Z) :
  jobs st = [] ->
  GetLatestNumber (repo st) = Ok repoLatest ->
  makeRoutineJobs fuel polls st =
  addJobsLoop fuel polls (firstNumber repoLatest (currentLatest st))
              (set_calls (calls st ++ [RepoGetLatestNumber]) st).
Proof.
  intros Hq Hrepo. unfold makeRoutineJobs.
  rewrite (makeRoutineJobsOutcome_read fuel polls st repoLatest Hq Hrepo).
  destruct (addJobsLoop fuel polls (firstNumber repoLatest (currentLatest st))
              (set_calls (calls st ++ [RepoGetLatestNumber]) st));
    reflexivity.
Qed.

Lemma makeRoutineJobs_busy (fuel : nat) (polls : list bool) (st : Indexer Store) :
  jobs st <> [] -> makeRoutineJobs fuel polls st = Some st.
Proof.
  intros Hne. unfold makeRoutineJobs.
  rewrite makeRoutineJobsOutcome_busy by exact Hne. reflexivity.
Qed.

Lemma makeRoutineJobs_live (fuel : nat) (st : Indexer Store) (repoLatest : Z) :
  jobs st = [] ->
  GetLatestNumber (repo st) = Ok repoLatest ->
  0 <= currentLatest st < 2 ^ 64 - 1 ->
  (Z.to_nat (currentLatest st) + 2 <= fuel)%nat ->
  makeRoutineJobs fuel [] st =
  Some (set_senders
          (senders st ++
           numbersFromTo (firstNumber repoLatest (currentLatest st))
                         (currentLatest st))
          (set_calls (calls st ++ [RepoGetLatestNumber]) st)).
Proof.
  intros Hq Hrepo Hcl Hfuel.
  rewrite (makeRoutineJobs_read fuel [] st repoLatest Hq Hrepo).
  pose proof (u64_range (currentLatest st - IndexLimit)) as R1.
  pose proof (u64_range (repoLatest + 1)) as R2.
  assert (Hf : 0 <= firstNumber repoLatest (currentLatest st)).
  { unfold firstNumber. destruct (repoLatest =? 0); lia. }
  set (st1 := set_calls (calls st ++ [RepoGetLatestNumber]) st).
  change (currentLatest st) with (currentLatest st1) in *.
  change (senders st) with (senders st1).
  destruct (Z_le_gt_dec (firstNumber repoLatest (currentLatest st1))
                        (currentLatest st1 + 1)) as [Hle|Hgt].
  - apply (addJobsLoop_live
             (Z.to_nat (currentLatest st1 + 1
                        - firstNumber repoLatest (currentLatest st1))));
      lia.
  - destruct fuel as [|fuel]; [lia|].
    rewrite addJobsLoop_stop by lia.
    rewrite numbersFromTo_empty by lia.
    rewrite app_nil_r, set_senders_same. reflexivity.
Qed.

(** Whatever the context does, the loop only starts senders and, when
    cancelled, closes the channel: the buffer of the queue, the store,
    the known height, the errors and the calls are untouched. *)
Lemma addJobsLoop_frame (fuel : nat) :
  forall (polls : list bool) (i : Z) (st st' : Indexer Store),
    addJobsLoop fuel polls i st = Some st' ->
    jobs st' = jobs st /\ jobsCap st' = jobsCap st /\
    repo st' = repo st /\ currentLatest st' = currentLatest st /\
    errors st' = errors st /\ calls st' = calls st /\
    exists l, senders st' = senders st ++ l.
Proof.
  induction fuel as [|fuel IH]; intros polls i st st' Hrun;
    cbn [addJobsLoop] in Hrun; [discriminate|].
  destruct (i <=? currentLatest st).
  - destruct polls as [|[|] polls].
    + apply IH in Hrun. cbn [addJob set_senders jobs jobsCap repo
        currentLatest errors calls senders] in Hrun.
      destruct Hrun as (?&?&?&?&?&?&l&Hl).
      repeat (split; [assumption|]).
      exists (i :: l). rewrite Hl, <- app_assoc. reflexivity.
    + inversion Hrun; subst st'. cbn.
      repeat (split; [reflexivity|]).
      exists []. rewrite app_nil_r. reflexivity.
    + apply IH in Hrun. cbn [addJob set_senders jobs jobsCap repo
        currentLatest errors calls senders] in Hrun.
      destruct Hrun as (?&?&?&?&?&?&l&Hl).
      repeat (split; [assumption|]).
      exists (i :: l). rewrite Hl, <- app_assoc. reflexivity.
  - inversion Hrun; subst st'.
    repeat (split; [reflexivity|]).
    exists []. rewrite app_nil_r. reflexivity.
Qed.

(** With a live context, the numbers the loop submits depend on the
    counter and on the known height only. *)
Lemma addJobsLoop_same (fuel : nat) :
  forall (i : Z) (st st' : Indexer Store),
    addJobsLoop fuel [] i st = Some st' ->
    exists l,
      st' = set_senders (senders st ++ l) st /\
      forall st0 : Indexer Store,
        currentLatest st0 = currentLatest st ->
        addJobsLoop fuel [] i st0 = Some (set_senders (senders st0 ++ l) st0).
Proof.
  induction fuel as [|fuel IH]; intros i st st' Hrun;
    cbn [addJobsLoop tl] in Hrun; [discriminate|].
  destruct (i <=? currentLatest st) eqn:E.
  - apply IH in Hrun. destruct Hrun as (l & Hst' & Hany).
    exists (i :: l). split.
    + rewrite Hst'. cbn [addJob set_senders senders]. destruct st; cbn.
      rewrite <- app_assoc. reflexivity.
    + intros st0 Hcl. cbn [addJobsLoop tl]. rewrite Hcl, E.
      rewrite (Hany (addJob i st0)) by exact Hcl.
      cbn [addJob set_senders senders]. destruct st0; cbn.
      rewrite <- app_assoc. reflexivity.
  - inversion Hrun; subst st'. exists []. split.
    + rewrite app_nil_r, set_senders_same. reflexivity.
    + intros st0 Hcl. cbn [addJobsLoop]. rewrite Hcl, E.
      rewrite app_nil_r, set_senders_same. reflexivity.
Qed.

Lemma makeRoutineJobs_frame (fuel : nat) (polls : list bool)
      (st st' : Indexer Store) :
  makeRoutineJobs fuel polls st = Some st' ->
  jobs st' = jobs st /\ jobsCap st' = jobsCap st /\
  repo st' = repo st /\ currentLatest st' = currentLatest st /\
  exists l, senders st' = senders st ++ l.
Proof.
  intros Hrun. destruct (jobs st) as [|j q] eqn:Hq.
  - destruct (GetLatestNumber (repo st)) as [repoLatest|err] eqn:Hrepo.
    + rewrite (makeRoutineJobs_read fuel polls st repoLatest Hq Hrepo) in Hrun.
      apply addJobsLoop_frame in Hrun. cbn in Hrun.
      destruct Hrun as (Hj&?&?&?&?&?&l&Hl). rewrite Hq in Hj.
      repeat (split; [assumption|]). exists l. exact Hl.
    + unfold makeRoutineJobs in Hrun.
      rewrite (makeRoutineJobsOutcome_unread fuel polls st err Hq Hrepo)
        in Hrun.
      discriminate Hrun.
  - rewrite makeRoutineJobs_busy in Hrun by (rewrite Hq; discriminate).
    inversion Hrun; subst st'. rewrite Hq.
    repeat (split; [reflexivity|]).
    exists []. rewrite app_nil_r. reflexivity.
Qed.

Lemma numbersFromTo_sorted (from to : Z) :
  StronglySorted Z.lt (numbersFromTo from to).
Proof.
  remember (Z.to_nat (to - from + 1)) as n eqn:Hn.
  revert from Hn. induction n as [|n IH]; intros from Hn.
  - rewrite numbersFromTo_empty by lia. constructor.
  - rewrite numbersFromTo_cons by lia. constructor.
    + apply IH. lia.
    + apply Forall_forall. intros x Hx.
      apply In_numbersFromTo in Hx. lia.
Qed.

(** C1 (amended): a discovery pass that finds the queue empty, a live
    context and a readable store ends and submits, lowest first, exactly
    the numbers [from .. chainHeight], where
    [from = chainHeight - IndexLimit] when the store is empty (and the
    chain is at least [IndexLimit] high) and [from = storeLatest + 1]
    otherwise.  No maximum with [storeLatest + 1] is taken. *)
Theorem makeRoutineJobs_range (st : Indexer Store) (storeLatest : Z) :
  jobs st = [] ->
  GetLatestNumber (repo st) = Ok storeLatest ->
  0 <= storeLatest < 2 ^ 64 - 1 ->
  0 <= currentLatest st < 2 ^ 64 - 1 ->
  (storeLatest = 0 -> IndexLimit <= currentLatest st) ->
  let from :=
    if storeLatest =? 0 then currentLatest st - IndexLimit
    else storeLatest + 1 in
  exists (n : nat) (st' : Indexer Store),
    (forall fuel, (n <= fuel)%nat ->
                  makeRoutineJobs fuel [] st = Some st') /\
    senders st' = senders st ++ numbersFromTo from (currentLatest st) /\
    (forall x, In x (numbersFromTo from (currentLatest st)) <->
               from <= x <= currentLatest st) /\
    StronglySorted Z.lt (numbersFromTo from (currentLatest st)).
Proof.
  intros Hq Hrepo Hs Hcl Hboot from.
  exists (Z.to_nat (currentLatest st) + 2)%nat.
  eexists. split; [|split; [|split]].
  - intros fuel Hfuel.
    apply (makeRoutineJobs_live fuel st storeLatest Hq Hrepo Hcl Hfuel).
  - cbn [set_senders senders]. f_equal. f_equal.
    unfold firstNumber, from, IndexLimit in *.
    destruct (storeLatest =? 0) eqn:E.
    + apply u64_small. apply Z.eqb_eq in E. specialize (Hboot E). lia.
    + apply u64_small. lia.
  - intros x. apply In_numbersFromTo.
  - apply numbersFromTo_sorted.
Qed.

(** C4 (amended): [addJob] never waits and never touches the queue: it
    starts one goroutine per number, which performs the send.  A discovery
    pass therefore leaves the buffer as it found it and only adds pending
    senders, one per submitted number, however full the queue is.  The
    depth of the queue never exceeds its capacity, whatever the
    goroutines, the workers and the supervisor do. *)
Theorem addJob_spawns_sender :
  (forall (n : Z) (st : Indexer Store),
      jobs (addJob n st) = jobs st /\
      senders (addJob n st) = senders st ++ [n]) /\
  (forall fuel polls (st st' : Indexer Store),
      makeRoutineJobs fuel polls st = Some st' ->
      jobs st' = jobs st /\ exists l, senders st' = senders st ++ l) /\
  (forall st st' : Indexer Store,
      clos_refl_trans _ queue_step st st' ->
      (List.length (jobs st) <= jobsCap st)%nat ->
      (List.length (jobs st') <= jobsCap st')%nat).
Proof.
  split; [|split].
  - intros n st. split; reflexivity.
  - intros fuel polls st st' Hrun.
    apply makeRoutineJobs_frame in Hrun.
    destruct Hrun as (Hj & _ & _ & _ & Hl). split; assumption.
  - intros st st' Hsteps. induction Hsteps as [st st' Hstep | st | ]; auto.
    intros Hdepth. destruct Hstep as [st st' Hchan | fuel polls st st' Hrun].
    + destruct Hchan as [st l1 n l2 _ Hroom _ | st n rest Hq].
      * cbn [set_senders set_jobs jobs jobsCap].
        rewrite length_app. cbn [List.length]. lia.
      * cbn [set_jobs jobs jobsCap]. rewrite Hq in Hdepth.
        cbn [List.length] in Hdepth. lia.
    + apply makeRoutineJobs_frame in Hrun.
      destruct Hrun as (Hj & Hc & _). rewrite Hj, Hc. exact Hdepth.
Qed.

(** C6 (the code departs from the claim): when [GetBlockNumber] fails,
    [currentLatest] keeps its value, as claimed, but the error is never
    reported: [updateLatestNumber] is suspended for ever in its send on
    [idx.errors], nothing joins the values sent on the channel, and the
    loop of [Run], whose tick made the call, serves no later tick, error
    or cancellation.  On success the height returned is stored and the
    call returns. *)
Theorem updateLatestNumber_blocks_on_failure (st : Indexer Store) :
  match GetBlockNumber (ethClient st) with
  | Err err =>
      exists st1 : Indexer Store,
        updateLatestNumber st =
        Blocked (Errorf "failed to get latest number on chain, " err) st1 /\
        currentLatest st1 = currentLatest st /\
        errors st1 = errors st /\
        forall fuel polls evs,
          RunLoop fuel (RunTick polls :: evs) st = Some (Running, st1)
  | Ok latest =>
      exists st1 : Indexer Store,
        updateLatestNumber st = Returned st1 /\
        currentLatest st1 = latest /\
        errors st1 = errors st
  end.
Proof.
  unfold updateLatestNumber. run. cbn [set_calls ethClient].
  destruct (GetBlockNumber (ethClient st)) as [latest|err] eqn:Hnode.
  - eexists. split; [reflexivity|]. split; reflexivity.
  - eexists. split; [reflexivity|]. split; [reflexivity|].
    split; [reflexivity|]. intros fuel polls evs.
    cbn [RunLoop]. unfold tickOutcome, updateLatestNumber. run.
    cbn [set_calls ethClient]. rewrite Hnode. reflexivity.
Qed.

(** C8: a discovery pass on an empty queue with a readable store ends
    and submits the numbers [firstNumber .. height], a list that depends
    on the store's latest number and on the known height only.  A second
    pass right after it submits the same list again; so does a pass from
    any state with the same store and height whose queue is empty, while
    a pass that finds the queue non-empty does nothing at all. *)
Theorem makeRoutineJobs_idempotent (st st' : Indexer Store)
        (storeLatest : Z) :
  jobs st = [] ->
  GetLatestNumber (repo st) = Ok storeLatest ->
  0 <= currentLatest st < 2 ^ 64 - 1 ->
  repo st' = repo st ->
  currentLatest st' = currentLatest st ->
  let range :=
    numbersFromTo (firstNumber storeLatest (currentLatest st))
                  (currentLatest st) in
  exists n : nat,
    forall fuel, (n <= fuel)%nat ->
      exists r r2 r' : Indexer Store,
        makeRoutineJobs fuel [] st = Some r /\
        senders r = senders st ++ range /\
        makeRoutineJobs fuel [] r = Some r2 /\
        senders r2 = senders st ++ range ++ range /\
        makeRoutineJobs fuel [] st' = Some r' /\
        (jobs st' = [] -> senders r' = senders st' ++ range) /\
        (jobs st' <> [] -> r' = st').
Proof.
  intros Hq Hrepo Hcl Hrepo' Hcl' range.
  exists (Z.to_nat (currentLatest st) + 2)%nat. intros fuel Hfuel.
  pose proof (makeRoutineJobs_live fuel st storeLatest Hq Hrepo Hcl Hfuel)
    as Hfirst.
  set (r := set_senders (senders st ++ range)
              (set_calls (calls st ++ [RepoGetLatestNumber]) st)) in *.
  pose proof (makeRoutineJobs_live fuel r storeLatest Hq Hrepo Hcl Hfuel)
    as Hsecond.
  destruct (jobs st') as [|j q] eqn:Hq'.
  - assert (Hthird := makeRoutineJobs_live fuel st' storeLatest Hq').
    rewrite Hrepo', Hcl' in Hthird.
    specialize (Hthird Hrepo Hcl Hfuel).
    eexists r, _, _. split; [exact Hfirst|]. split; [reflexivity|].
    split; [exact Hsecond|]. split.
    { cbn [set_senders senders r]. rewrite <- app_assoc. reflexivity. }
    split; [exact Hthird|]. split; [intros _; reflexivity | congruence].
  - eexists r, _, st'. split; [exact Hfirst|]. split; [reflexivity|].
    split; [exact Hsecond|]. split.
    { cbn [set_senders senders r]. rewrite <- app_assoc. reflexivity. }
    split; [apply makeRoutineJobs_busy; rewrite Hq'; discriminate|].
    split; [discriminate | reflexivity].
Qed.

(** ** Fetch workers *)

Lemma fetchAndStoreBlock_fetched (client : Client) (number : Z)
      (blockRaw : RawBlock) (st : Indexer Store) :
  GetBlockByNumber client number = Ok blockRaw ->
  let blockModel :=
    {| Number := rawNumber blockRaw; Hash := rawHash blockRaw;
       Time := rawTime blockRaw; ParentHash := rawParentHash blockRaw;
       Transactions := rawTransactions blockRaw; Confirmed := false |} in
  fst (fetchAndStoreBlock client number st) = None /\
  errors (snd (fetchAndStoreBlock client number st)) = errors st /\
  calls (snd (fetchAndStoreBlock client number st)) =
  calls st ++ [ChainGetBlockByNumber number; RepoCreateBlock blockModel] /\
  repo (snd (fetchAndStoreBlock client number st)) =
  snd (CreateBlock blockModel (repo st)).
Proof.
  intros Hfetch blockModel. unfold fetchAndStoreBlock. run.
  rewrite Hfetch. cbn. rewrite map_id, <- app_assoc.
  repeat split; reflexivity.
Qed.

(** ** Confirmation worker *)

Lemma skipn_nth_error {A : Type} (l : list A) :
  forall (i : nat) (x : A),
    nth_error l i = Some x -> skipn i l = x :: skipn (S i) l.
Proof.
  induction l as [|a l IH]; intros [|i] x Hx; cbn in Hx; try discriminate.
  - inversion Hx. reflexivity.
  - cbn [skipn]. rewrite (IH i x Hx). reflexivity.
Qed.

Lemma validateLoop_prefix (n : nat) :
  forall (i : nat) (blocks : list Block) (to : Z) (acc : list Block),
    (i + n + 1 = List.length blocks)%nat ->
    exists k : nat,
      (k <= n)%nat /\
      validateLoop n i blocks to acc = acc ++ firstn k (skipn i blocks) /\
      (forall j, (i <= j < i + k)%nat ->
                 linkedAt (uint64_of_int to) blocks j) /\
      ((k < n)%nat -> stopsAt (uint64_of_int to) blocks (i + k)).
Proof.
  induction n as [|n IH]; intros i blocks to acc Hlen.
  - exists O. cbn [validateLoop firstn]. rewrite app_nil_r.
    split; [lia|]. split; [reflexivity|]. split; intros; lia.
  - destruct (nth_error blocks i) as [bi|] eqn:Ei.
    2:{ apply nth_error_None in Ei. lia. }
    destruct (nth_error blocks (i + 1)) as [bi1|] eqn:Ei1.
    2:{ apply nth_error_None in Ei1. lia. }
    cbn [validateLoop]. rewrite Ei, Ei1.
    assert (Ei1' : nth_error blocks (S i) = Some bi1).
    { rewrite <- Ei1. f_equal. lia. }
    destruct (Number bi >=? uint64_of_int to) eqn:Eb.
    { exists O. cbn [firstn]. rewrite app_nil_r, Nat.add_0_r.
      split; [lia|]. split; [reflexivity|]. split.
      - intros j Hj. lia.
      - intros _. exists bi, bi1. split; [assumption|].
        split; [assumption|]. left. rewrite Z.geb_leb in Eb.
        apply Z.leb_le in Eb. lia. }
    destruct (String.eqb (Hash bi) (ParentHash bi1)) eqn:Eh; cbn [negb].
    2:{ exists O. cbn [firstn]. rewrite app_nil_r, Nat.add_0_r.
        split; [lia|]. split; [reflexivity|]. split.
        - intros j Hj. lia.
        - intros _. exists bi, bi1. split; [assumption|].
          split; [assumption|]. right. apply String.eqb_neq. exact Eh. }
    destruct (IH (i + 1)%nat blocks to (acc ++ [bi]))
      as (k & Hk & Hres & Hlink & Hstop); [lia|].
    exists (S k). split; [lia|]. split; [|split].
    + rewrite Hres, (skipn_nth_error blocks i bi Ei). cbn [firstn].
      rewrite <- app_assoc. cbn [app].
      replace (i + 1)%nat with (S i) by lia. reflexivity.
    + intros j Hj. destruct (Nat.eq_dec j i) as [->|Hne].
      * exists bi, bi1. split; [assumption|]. split; [assumption|]. split.
        -- rewrite Z.geb_leb in Eb. apply Z.leb_gt in Eb. exact Eb.
        -- apply String.eqb_eq. exact Eh.
      * apply Hlink. lia.
    + intros Hlt. replace (i + S k)%nat with (i + 1 + k)%nat by lia.
      apply Hstop. lia.
Qed.

Lemma callsSince_app (before new : list Call) :
  callsSince before (before ++ new) = new.
Proof.
  unfold callsSince. rewrite skipn_app, Nat.sub_diag, skipn_all.
  reflexivity.
Qed.

Lemma validatedBlocksOf_prefix (latest : Z) (blocks : list Block) :
  (1 <= List.length blocks)%nat ->
  exists i : nat,
    (i <= List.length blocks - 1)%nat /\
    validatedBlocksOf latest blocks = firstn i blocks /\
    (forall j, (j < i)%nat -> linkedAt (safeBoundary latest) blocks j) /\
    ((i < List.length blocks - 1)%nat ->
     stopsAt (safeBoundary latest) blocks i).
Proof.
  intros Hlen. unfold validatedBlocksOf.
  destruct (validateLoop_prefix (List.length blocks - 1) 0 blocks
              (int_of_uint64 (u64 (latest - ConfirmationNeeded))) [])
    as (k & Hk & Hres & Hlink & Hstop); [lia|].
  rewrite uint64_of_int_of_uint64 in Hlink, Hstop by apply u64_range.
  exists k. split; [exact Hk|]. split; [exact Hres|]. split.
  - intros j Hj. apply Hlink. lia.
  - exact Hstop.
Qed.

(** A pass that reads fewer than two blocks reads and does nothing else. *)
Lemma confirmPass_short (st : Indexer Store) (blocks : list Block) :
  GetUnconfirmedBlocks (repo st) = Ok blocks ->
  (List.length blocks < 2)%nat ->
  confirmPass st =
  (Running, set_calls (calls st ++ [RepoGetUnconfirmedBlocks]) st).
Proof.
  intros Hread Hlen. unfold confirmPass. run.
  cbn [set_calls repo]. rewrite Hread.
  destruct (List.length blocks <? 2)%nat eqn:E; [reflexivity|].
  apply Nat.ltb_ge in E. lia.
Qed.

(** A pass that reads two blocks or more hands the validated blocks to
    [ConfirmBlocks]; it returns, after sending the error, exactly when
    that call fails. *)
Lemma confirmPass_long (st : Indexer Store) (blocks : list Block) :
  GetUnconfirmedBlocks (repo st) = Ok blocks ->
  (2 <= List.length blocks)%nat ->
  let vs := validatedBlocksOf (currentLatest st) blocks in
  calls (snd (confirmPass st)) =
  calls st ++ [RepoGetUnconfirmedBlocks; RepoConfirmBlocks vs] /\
  repo (snd (confirmPass st)) = snd (ConfirmBlocks vs (repo st)) /\
  match fst (ConfirmBlocks vs (repo st)) with
  | Some e =>
      fst (confirmPass st) = Stopped /\
      errors (snd (confirmPass st)) =
      errors st ++ [Errorf "[ConfirmWorker] failed to confirm blocks, " e]
  | None =>
      fst (confirmPass st) = Running /\
      errors (snd (confirmPass st)) = errors st
  end.
Proof.
  intros Hread Hlen vs. unfold confirmPass. run.
  cbn [set_calls repo]. rewrite Hread.
  destruct (List.length blocks <? 2)%nat eqn:E.
  { apply Nat.ltb_lt in E. lia. }
  cbn [fst snd set_calls set_repo currentLatest repo calls].
  fold (validatedBlocksOf (currentLatest st) blocks). fold vs.
  destruct (ConfirmBlocks vs (repo st)) as [[e|] s'];
    cbn; rewrite <- app_assoc; repeat split; reflexivity.
Qed.


(** A confirmation pass that reads fewer than two unconfirmed blocks
    promotes nothing (it makes no call besides the read).  Otherwise it
    hands to [ConfirmBlocks] exactly the prefix [b[0..i-1]], where every
    pair before [i] is below the boundary and linked, and [i] is the first
    index at which the walk stops: [b[i].Number >= safeBoundary] or
    [b[i].Hash <> b[i+1].ParentHash] (or [i] is the last index, when no
    pair stops the walk).  The boundary is that of the code,
    [currentLatest - ConfirmationNeeded] in [uint64] arithmetic. *)
Lemma confirmPass_validated_prefix (st : Indexer Store)
        (blocks : list Block) :
  GetUnconfirmedBlocks (repo st) = Ok blocks ->
  ((List.length blocks < 2)%nat ->
   calls (snd (confirmPass st)) = calls st ++ [RepoGetUnconfirmedBlocks] /\
   repo (snd (confirmPass st)) = repo st) /\
  ((2 <= List.length blocks)%nat ->
   exists i : nat,
     (i <= List.length blocks - 1)%nat /\
     calls (snd (confirmPass st)) =
     calls st ++ [RepoGetUnconfirmedBlocks;
                  RepoConfirmBlocks (firstn i blocks)] /\
     (forall j, (j < i)%nat ->
                linkedAt (safeBoundary (currentLatest st)) blocks j) /\
     ((i < List.length blocks - 1)%nat ->
      stopsAt (safeBoundary (currentLatest st)) blocks i)).
Proof.
  intros Hread. split; intros Hlen.
  - rewrite (confirmPass_short st blocks Hread Hlen). split; reflexivity.
  - destruct (confirmPass_long st blocks Hread Hlen) as (Hcalls & _).
    destruct (validatedBlocksOf_prefix (currentLatest st) blocks)
      as (i & Hi & Hvs & Hlink & Hstop); [lia|].
    exists i. rewrite Hcalls, Hvs. auto.
Qed.


Lemma In_firstn {A : Type} (n : nat) (l : list A) (x : A) :
  In x (firstn n l) -> In x l.
Proof.
  intros Hin. rewrite <- (firstn_skipn n l). apply in_or_app.
  left. exact Hin.
Qed.

(** C9 (amended): in a pass that reads at least one unconfirmed block,
    the blocks handed to [ConfirmBlocks] form a prefix of the list read
    that stops short of its last element; with distinct block numbers and
    a store that confirms only the blocks it is handed, the last block
    read is still unconfirmed in the store after the pass. *)
Theorem confirmPass_keeps_last (st : Indexer Store) (blocks : list Block) :
  GetUnconfirmedBlocks (repo st) = Ok blocks ->
  blocks <> [] ->
  NoDup (map Number blocks) ->
  confirmsOnlyListed (repo st) ->
  exists (rest : list Block) (highest : Block),
    blocks =
    promotedIn (callsSince (calls st) (calls (snd (confirmPass st))))
    ++ rest ++ [highest] /\
    exists after : list Block,
      GetUnconfirmedBlocks (repo (snd (confirmPass st))) = Ok after /\
      In highest after.
Proof.
  intros Hread Hne Hnodup Hcontract.
  destruct (exists_last Hne) as (front & highest & Hblocks).
  assert (Hhighest : In highest blocks).
  { rewrite Hblocks. apply in_or_app. right. left. reflexivity. }
  destruct (le_lt_dec 2 (List.length blocks)) as [Hlen|Hlen].
  - destruct (confirmPass_long st blocks Hread Hlen) as (Hcalls & Hrepo & _).
    destruct (validatedBlocksOf_prefix (currentLatest st) blocks)
      as (i & Hi & Hvs & _); [lia|].
    assert (Hfront : firstn i blocks = firstn i front).
    { rewrite Hblocks in Hi |- *. rewrite length_app in Hi.
      cbn [List.length] in Hi. rewrite firstn_app.
      replace (i - List.length front)%nat with O by lia.
      cbn [firstn]. apply app_nil_r. }
    exists (skipn i front), highest. split.
    + rewrite Hcalls, callsSince_app, Hvs. cbn [promotedIn].
      rewrite app_nil_r, Hfront, app_assoc, firstn_skipn. exact Hblocks.
    + rewrite Hrepo, Hvs, Hfront.
      apply (Hcontract blocks (firstn i front) highest Hread Hhighest).
      intros Hin. apply in_map_iff in Hin.
      destruct Hin as (x & Hnum & Hx). apply In_firstn in Hx.
      rewrite Hblocks, map_app in Hnodup. cbn [map] in Hnodup.
      apply NoDup_remove_2 in Hnodup. apply Hnodup.
      rewrite app_nil_r. rewrite <- Hnum. apply in_map. exact Hx.
  - rewrite (confirmPass_short st blocks Hread Hlen).
    cbn [snd set_calls calls repo]. rewrite callsSince_app.
    cbn [promotedIn app].
    destruct front as [|b front].
    + exists [], highest. split; [exact Hblocks|].
      exists blocks. split; [exact Hread | exact Hhighest].
    + rewrite Hblocks in Hlen. rewrite length_app in Hlen.
      cbn [List.length] in Hlen. lia.
Qed.

(** C3 (the code departs from the claim): once the fetch has succeeded the
    worker builds the block record and calls [CreateBlock], but the answer
    of [CreateBlock] is dropped: whatever it is, failure included,
    [fetchAndStoreBlock] returns no error and the worker sends nothing on
    the error channel. *)
Theorem FastWorker_drops_CreateBlock_error
        (client : Client) (number : Z) (blockRaw : RawBlock)
        (st : Indexer Store) :
  GetBlockByNumber client number = Ok blockRaw ->
  let blockModel :=
    {| Number := rawNumber blockRaw; Hash := rawHash blockRaw;
       Time := rawTime blockRaw; ParentHash := rawParentHash blockRaw;
       Transactions := rawTransactions blockRaw; Confirmed := false |} in
  fst (fetchAndStoreBlock client number st) = None /\
  errors (snd (FastWorker (Ok client) [RecvJob number true] st)) = errors st /\
  calls (snd (FastWorker (Ok client) [RecvJob number true] st)) =
  calls st ++ [ChainGetBlockByNumber number; RepoCreateBlock blockModel].
Proof.
  intros Hfetch blockModel.
  destruct (fetchAndStoreBlock_fetched client number blockRaw st Hfetch)
    as (Hnone & Herr & Hcalls & _).
  split; [exact Hnone|].
  cbn [FastWorker FastWorkerLoop negb]. unfold bind, ret. cbn [fst snd].
  rewrite Hnone. cbn [fst snd]. split; assumption.
Qed.

(** ** Query entry points *)

(** C5: when the store has no record for [hash] and the live fetch of the
    transaction and of its receipt succeeds, [GetTransaction] assembles
    the transaction, stores it with [CreateTransaction] and returns it;
    if the store then finds what was created, a second call returns that
    copy after a single store lookup, with no call to the chain. *)
Theorem GetTransaction_fetch_then_cached
        (hash : string) (st : Indexer Store)
        (tx : RawTransaction) (txReceipt : Receipt) :
  let t :=
    {| TxHash := hash; From := rawFrom tx; To := rawTo tx;
       Nonce := rawNonce tx; Data := rawData tx; Value := rawValue tx;
       Logs := map (fun l => {| Index := rawIndex l;
                                LogData := BytesToHashString (rawLogData l) |})
                   (receiptLogs txReceipt);
       BlockHash := receiptBlockHash txReceipt |} in
  FindTransaction hash (repo st) = Ok None ->
  GetTransactionByHash (ethClient st) hash = Ok tx ->
  GetTransactionReceipt (ethClient st) hash = Ok txReceipt ->
  fst (CreateTransaction t (repo st)) = None ->
  FindTransaction hash (snd (CreateTransaction t (repo st))) = Ok (Some t) ->
  let first := GetTransaction BytesToHashString hash st in
  let second := GetTransaction BytesToHashString hash (snd first) in
  fst first = Ok t /\
  calls (snd first) =
  calls st ++ [RepoFindTransaction hash; ChainGetTransactionByHash hash;
               ChainGetTransactionReceipt hash; RepoCreateTransaction t] /\
  repo (snd first) = snd (CreateTransaction t (repo st)) /\
  fst second = Ok t /\
  calls (snd second) = calls (snd first) ++ [RepoFindTransaction hash] /\
  repo (snd second) = repo (snd first).
Proof.
  intros t Hmiss Htx Hrc Hcreate Hfound first second.
  assert (Hfirst :
    first =
    (Ok t,
     set_repo (snd (CreateTransaction t (repo st)))
       (set_calls
          (calls st ++ [RepoFindTransaction hash;
                        ChainGetTransactionByHash hash;
                        ChainGetTransactionReceipt hash;
                        RepoCreateTransaction t]) st))).
  { unfold first, GetTransaction. run. cbn [set_calls repo ethClient calls].
    rewrite Hmiss. cbn [fst snd set_calls ethClient calls repo].
    rewrite Htx. cbn [fst snd set_calls ethClient calls repo].
    rewrite Hrc. cbn [fst snd set_calls set_repo ethClient calls repo].
    fold t. rewrite Hcreate. cbn [fst snd].
    repeat rewrite <- app_assoc. reflexivity. }
  unfold second. rewrite Hfirst. cbn [fst snd set_repo set_calls calls repo].
  unfold GetTransaction. run. cbn [set_calls set_repo repo calls].
  rewrite Hfound. cbn. repeat split; reflexivity.
Qed.

(** ** [GET /blocks] *)

Lemma DefaultQuery_absent (key def : string) (c : Request) :
  (forall kv, In kv (query c) -> fst kv <> key) ->
  DefaultQuery key def c = def.
Proof.
  intros Habs. unfold DefaultQuery.
  destruct (find (fun kv => String.eqb (fst kv) key) (query c)) as [kv|] eqn:E;
    [|reflexivity].
  apply find_some in E. destruct E as [Hin Heq].
  apply String.eqb_eq in Heq. exfalso. exact (Habs kv Hin Heq).
Qed.

Lemma IndexerGetNewBlocks_state (limit : Z) (st : Indexer Store) :
  snd (IndexerGetNewBlocks limit st) =
  set_calls (calls st ++ [RepoGetNewBlocks limit]) st.
Proof. reflexivity. Qed.

Lemma limit_in_range (limit : Z) :
  1 <= limit <= 10 <-> (limit <? 1) || (limit >? 10) = false.
Proof.
  rewrite orb_false_iff, Z.gtb_ltb, !Z.ltb_ge. lia.
Qed.

Lemma blocksHandler_accepts (c : Request) (st : Indexer Store) (limit : Z) :
  Atoi (DefaultQuery "limit" "1" c) = Ok limit ->
  1 <= limit <= 10 ->
  snd (blocksHandler Atoi c st) =
  set_calls (calls st ++ [RepoGetNewBlocks limit]) st.
Proof.
  intros Hparse Hrange. unfold blocksHandler. rewrite Hparse.
  apply limit_in_range in Hrange. rewrite Hrange.
  unfold bind at 1.
  destruct (snd (fst (IndexerGetNewBlocks limit st)));
    unfold ret; cbn [snd]; apply IndexerGetNewBlocks_state.
Qed.

Lemma blocksHandler_rejects (c : Request) (st : Indexer Store) :
  match Atoi (DefaultQuery "limit" "1" c) with
  | Err _ => True
  | Ok limit => limit < 1 \/ limit > 10
  end ->
  blocksHandler Atoi c st =
  ({| status := StatusBadRequest;
      body := Message "limit must be a number and between 1 and 10" |}, st).
Proof.
  unfold blocksHandler.
  destruct (Atoi (DefaultQuery "limit" "1" c)) as [limit|err];
    [|reflexivity].
  intros Hout. destruct ((limit <? 1) || (limit >? 10)) eqn:E;
    [reflexivity|]. apply limit_in_range in E. lia.
Qed.

(** C10: without a [limit] parameter the handler reads the limit from the
    default ["1"] (so it asks for one block); a limit that is not a
    number, or is below 1 or above 10, is answered with 400 and leaves the
    indexer untouched (no call is made); every [GetNewBlocks] call the
    handler makes carries a limit between 1 and 10. *)
Theorem blocksHandler_limit (c : Request) (st : Indexer Store) :
  ((forall kv, In kv (query c) -> fst kv <> "limit") ->
   DefaultQuery "limit" "1" c = "1" /\
   (Atoi "1" = Ok 1 ->
    calls (snd (blocksHandler Atoi c st)) = calls st ++ [RepoGetNewBlocks 1])) /\
  ((match Atoi (DefaultQuery "limit" "1" c) with
    | Err _ => True
    | Ok limit => limit < 1 \/ limit > 10
    end) ->
   status (fst (blocksHandler Atoi c st)) = StatusBadRequest /\
   snd (blocksHandler Atoi c st) = st) /\
  (forall limit,
      In (RepoGetNewBlocks limit)
         (callsSince (calls st) (calls (snd (blocksHandler Atoi c st)))) ->
      Atoi (DefaultQuery "limit" "1" c) = Ok limit /\ 1 <= limit <= 10).
Proof.
  split; [|split].
  - intros Habs. pose proof (DefaultQuery_absent _ "1" _ Habs) as Hdef.
    split; [exact Hdef|]. intros H1.
    rewrite (blocksHandler_accepts c st 1); [reflexivity| |lia].
    rewrite Hdef. exact H1.
  - intros Hout. rewrite (blocksHandler_rejects c st Hout).
    split; reflexivity.
  - intros limit Hin.
    destruct (Atoi (DefaultQuery "limit" "1" c)) as [l|err] eqn:Hparse.
    + destruct ((l <? 1) || (l >? 10)) eqn:E.
      * rewrite blocksHandler_rejects in Hin.
        -- unfold callsSince in Hin. cbn [snd] in Hin.
           rewrite skipn_all in Hin. destruct Hin.
        -- rewrite Hparse.
           destruct (Z_lt_dec l 1); [left; assumption|].
           destruct (Z_gt_dec l 10); [right; assumption|].
           assert (Hr : 1 <= l <= 10) by lia.
           apply limit_in_range in Hr. congruence.
      * apply limit_in_range in E.
        rewrite (blocksHandler_accepts c st l Hparse E) in Hin.
        cbn [set_calls calls] in Hin. rewrite callsSince_app in Hin.
        destruct Hin as [Heq|[]]. inversion Heq; subst.
        split; [reflexivity | exact E].
    + rewrite blocksHandler_rejects in Hin by (rewrite Hparse; exact I).
      unfold callsSince in Hin. cbn [snd] in Hin.
      rewrite skipn_all in Hin. destruct Hin.
Qed.

End IndexerProperties.

(** * The scenarios, run *)

(** Scenarios A and B: with an empty store, height 500 and limit 100 the
    pass submits 400..500; with store latest 450 it submits 451..500. *)
Lemma makeRoutineJobs_range_scenarios :
  (exists (n : nat) (st' : Indexer MemStore),
      (forall fuel, (n <= fuel)%nat ->
                    makeRoutineJobs fuel [] scenarioA = Some st') /\
      senders st' = numbersFromTo 400 500) /\
  (exists (n : nat) (st' : Indexer MemStore),
      (forall fuel, (n <= fuel)%nat ->
                    makeRoutineJobs fuel [] scenarioB = Some st') /\
      senders st' = numbersFromTo 451 500).
Proof.
  split.
  - destruct (makeRoutineJobs_range scenarioA 0)
      as (n & st' & Hrun & Hsenders & _).
    + reflexivity.
    + reflexivity.
    + lia.
    + cbn. lia.
    + intros _. cbn. unfold IndexLimit. lia.
    + exists n, st'. split; [exact Hrun | exact Hsenders].
  - destruct (makeRoutineJobs_range scenarioB 450)
      as (n & st' & Hrun & Hsenders & _).
    + reflexivity.
    + reflexivity.
    + lia.
    + cbn. lia.
    + intros Hzero. discriminate Hzero.
    + exists n, st'. split; [exact Hrun | exact Hsenders].
Defined.

(** With an empty store and the chain at height 100, the pass submits
    0..100, block 0 included, where the specification's
    [max(storeLatest+1, chainHeight - INDEX_LIMIT)] starts at 1. *)
Lemma scheduleNextRange_spec_differs :
  GetLatestNumber (repo bootstrapAt100) = Ok 0 /\
  currentLatest bootstrapAt100 = 100 /\
  option_map senders (makeRoutineJobs 200 [] bootstrapAt100)
  = Some (numbersFromTo 0 100) /\
  scheduleNextRange_spec 0 100 = numbersFromTo 1 100 /\
  option_map senders (makeRoutineJobs 200 [] bootstrapAt100)
  <> Some (scheduleNextRange_spec 0 100).
Proof.
  split; [reflexivity|]. split; [reflexivity|].
  split; [vm_compute; reflexivity|]. split; [vm_compute; reflexivity|].
  intros Heq. vm_compute in Heq. discriminate Heq.
Qed.

(** The node is down at a tick: the refresh is suspended in its send,
    the height stays 500, nothing has been sent, and neither the next
    tick nor the cancellation is served. *)
Lemma updateLatestNumber_blocks_scenario :
  exists st1 : Indexer MemStore,
    updateLatestNumber scenarioStale =
    Blocked "failed to get latest number on chain, connection refused" st1 /\
    currentLatest st1 = 500 /\
    errors st1 = [] /\
    forall fuel polls evs,
      RunLoop fuel (RunTick polls :: evs) scenarioStale = Some (Running, st1).
Proof.
  exact (updateLatestNumber_blocks_on_failure scenarioStale).
Defined.

(** On scenario A: [addJob] leaves the buffer alone and starts a sender;
    the pass leaves the buffer empty; after the pass and the completion of
    the sender of 400 the queue holds one number, its capacity. *)
Lemma addJob_spawns_sender_scenario :
  (jobs (addJob 400 scenarioA) = [] /\
   senders (addJob 400 scenarioA) = [400]) /\
  (jobs (afterDiscovery scenarioA) = [] /\
   exists l, senders (afterDiscovery scenarioA) = [] ++ l) /\
  (List.length
     (jobs (set_senders (numbersFromTo 401 500)%Z
                        (set_jobs [400%Z] (afterDiscovery scenarioA))))
   <= 1)%nat.
Proof.
  destruct (@addJob_spawns_sender MemStore MemRepository)
    as (Hadd & Hpass & Hdepth).
  split; [exact (Hadd 400 scenarioA)|]. split.
  - apply (Hpass 200%nat [] scenarioA (afterDiscovery scenarioA)).
    vm_compute. reflexivity.
  - apply (Hdepth scenarioA).
    + apply rt_trans with (y := afterDiscovery scenarioA).
      * apply rt_step. apply (step_discovery 200 []).
        vm_compute. reflexivity.
      * apply rt_step. apply step_chan.
        apply (sender_completes (afterDiscovery scenarioA)
                                [] 400 (numbersFromTo 401 500)).
        -- vm_compute. reflexivity.
        -- vm_compute. lia.
        -- reflexivity.
    + cbn. lia.
Defined.

(** After the pass of scenario A, with no worker running, 101 senders are
    pending next to a queue of capacity 1 whose buffer the supervisor has
    not touched; on a full queue [addJob] returns at once with a new
    sender, where a send by the caller would wait. *)
Lemma addJob_is_not_a_blocking_send :
  makeRoutineJobs 200 [] scenarioA = Some (afterDiscovery scenarioA) /\
  jobsCap (afterDiscovery scenarioA) = 1%nat /\
  jobs (afterDiscovery scenarioA) = [] /\
  List.length (senders (afterDiscovery scenarioA)) = 101%nat /\
  addJob_spec 400 (set_jobs [399] scenarioA) = None /\
  senders (addJob 400 (set_jobs [399] scenarioA)) = [400] /\
  jobs (addJob 400 (set_jobs [399] scenarioA)) = [399].
Proof.
  split; [vm_compute; reflexivity|].
  split; [vm_compute; reflexivity|].
  split; [vm_compute; reflexivity|].
  split; [vm_compute; reflexivity|].
  split; [vm_compute; reflexivity|].
  split; vm_compute; reflexivity.
Qed.

(** On scenario A, two passes in a row each submit 400..500; once the
    sender of 400 has completed, a further pass does nothing. *)
Lemma makeRoutineJobs_idempotent_scenario :
  exists n : nat,
    forall fuel, (n <= fuel)%nat ->
      exists r r2 r' : Indexer MemStore,
        makeRoutineJobs fuel [] scenarioA = Some r /\
        senders r = numbersFromTo 400 500 /\
        makeRoutineJobs fuel [] r = Some r2 /\
        senders r2 = numbersFromTo 400 500 ++ numbersFromTo 400 500 /\
        makeRoutineJobs fuel [] (set_jobs [400] (afterDiscovery scenarioA))
        = Some r' /\
        r' = set_jobs [400] (afterDiscovery scenarioA).
Proof.
  destruct (makeRoutineJobs_idempotent
              scenarioA (set_jobs [400] (afterDiscovery scenarioA)) 0)
    as (n & Hn).
  - reflexivity.
  - reflexivity.
  - cbn. lia.
  - vm_compute. reflexivity.
  - vm_compute. reflexivity.
  - exists n. intros fuel Hfuel.
    destruct (Hn fuel Hfuel)
      as (r & r2 & r' & Hfirst & Hr & Hsecond & Hr2 & Hthird & _ & Hnoop).
    exists r, r2, r'. split; [exact Hfirst|].
    split; [rewrite Hr; vm_compute; reflexivity|].
    split; [exact Hsecond|].
    split; [rewrite Hr2; vm_compute; reflexivity|].
    split; [exact Hthird|]. apply Hnoop. vm_compute. discriminate.
Defined.

(** Scenario C: blocks 10, 11, 12 with block 12 not linked to block 11.
    With the boundary at 11 the walk stops at block 11 for depth; with the
    boundary far above it stops at block 11 for the broken link.  Either
    way block 10 alone is handed to [ConfirmBlocks]. *)
Lemma confirmPass_scenario_C :
  (exists i : nat,
      (i <= 2)%nat /\
      calls (snd (confirmPass scenarioC)) =
      [RepoGetUnconfirmedBlocks;
       RepoConfirmBlocks (firstn i [block10; block11; block12])] /\
      (forall j, (j < i)%nat -> linkedAt 11 [block10; block11; block12] j) /\
      ((i < 2)%nat -> stopsAt 11 [block10; block11; block12] i)) /\
  calls (snd (confirmPass scenarioC)) =
  [RepoGetUnconfirmedBlocks; RepoConfirmBlocks [block10]] /\
  calls (snd (confirmPass scenarioCdeep)) =
  [RepoGetUnconfirmedBlocks; RepoConfirmBlocks [block10]].
Proof.
  split; [|split; reflexivity].
  destruct (confirmPass_validated_prefix
              scenarioC [block10; block11; block12]) as [_ Hlong].
  - reflexivity.
  - apply Hlong. cbn. lia.
Defined.


(** The reference store confirms only the blocks it is handed. *)
Lemma hasNumber_absent (n : Z) (l : list Block) :
  ~ In n (map Number l) -> hasNumber n l = false.
Proof.
  intros Hnot. unfold hasNumber.
  destruct (existsb (fun b => Number b =? n) l) eqn:E; [|reflexivity].
  apply existsb_exists in E. destruct E as (x & Hx & Heq).
  apply Z.eqb_eq in Heq. exfalso. apply Hnot. rewrite <- Heq.
  apply in_map. exact Hx.
Qed.

Lemma memStore_confirmsOnlyListed (s : MemStore) : confirmsOnlyListed s.
Proof.
  intros blocks vs b Hread Hin Hnot. cbn in Hread.
  inversion Hread; subst blocks. clear Hread.
  apply filter_In in Hin. destruct Hin as [Hin Hunconfirmed].
  cbn [ConfirmBlocks MemRepository]. unfold memConfirmBlocks.
  destruct (memReadOnly s).
  - eexists. split; [reflexivity|]. apply filter_In. split; assumption.
  - eexists. split; [reflexivity|]. cbn [snd memBlocks].
    apply filter_In. split; [|exact Hunconfirmed].
    apply in_map_iff. exists b. split; [|exact Hin].
    rewrite (hasNumber_absent (Number b) vs Hnot). reflexivity.
Qed.

(** On scenario C the pass hands over block 10; blocks 11 and 12, the
    highest, are still unconfirmed in the store afterwards. *)
Lemma confirmPass_keeps_last_scenario :
  (exists (rest : list Block) (highest : Block),
      [block10; block11; block12] =
      promotedIn (callsSince (calls scenarioC)
                             (calls (snd (confirmPass scenarioC))))
      ++ rest ++ [highest] /\
      exists after : list Block,
        GetUnconfirmedBlocks (repo (snd (confirmPass scenarioC))) = Ok after /\
        In highest after) /\
  GetUnconfirmedBlocks (repo (snd (confirmPass scenarioC)))
  = Ok [block11; block12].
Proof.
  split; [|reflexivity].
  apply (confirmPass_keeps_last scenarioC [block10; block11; block12]).
  - reflexivity.
  - discriminate.
  - cbn. repeat constructor; cbn; intuition discriminate.
  - apply memStore_confirmsOnlyListed.
Defined.

(** A pass over a store that holds no unconfirmed block reads nothing,
    promotes nothing, and leaves no block unconfirmed. *)
Lemma confirmPass_may_leave_none_unconfirmed :
  GetUnconfirmedBlocks (repo scenarioAllConfirmed) = Ok [] /\
  promotedIn (callsSince (calls scenarioAllConfirmed)
                         (calls (snd (confirmPass scenarioAllConfirmed))))
  = [] /\
  GetUnconfirmedBlocks (repo (snd (confirmPass scenarioAllConfirmed)))
  = Ok [] /\
  ~ (exists b after,
        GetUnconfirmedBlocks (repo (snd (confirmPass scenarioAllConfirmed)))
        = Ok after /\ In b after).
Proof.
  split; [reflexivity|]. split; [reflexivity|]. split; [reflexivity|].
  intros (b & after & Hafter & Hin). vm_compute in Hafter.
  inversion Hafter; subst after. destruct Hin.
Qed.

(** The walk of the code is the walk of the specification, read with the
    boundary the code computes. *)
Lemma validateLoop_walk (n : nat) :
  forall (i : nat) (blocks : list Block) (to : Z) (acc : list Block),
    (i + n + 1 = List.length blocks)%nat ->
    validateLoop n i blocks to acc =
    acc ++ validatedPrefix_spec (uint64_of_int to) (skipn i blocks).
Proof.
  induction n as [|n IH]; intros i blocks to acc Hlen.
  - destruct (nth_error blocks i) as [bi|] eqn:Ei.
    2:{ apply nth_error_None in Ei. lia. }
    rewrite (skipn_nth_error blocks i bi Ei).
    rewrite skipn_all2 by lia. cbn. rewrite app_nil_r. reflexivity.
  - destruct (nth_error blocks i) as [bi|] eqn:Ei.
    2:{ apply nth_error_None in Ei. lia. }
    destruct (nth_error blocks (S i)) as [bi1|] eqn:Ei1.
    2:{ apply nth_error_None in Ei1. lia. }
    rewrite (skipn_nth_error blocks i bi Ei).
    rewrite (skipn_nth_error blocks (S i) bi1 Ei1).
    cbn [validateLoop validatedPrefix_spec].
    replace (i + 1)%nat with (S i) by lia. rewrite Ei, Ei1.
    destruct (Number bi >=? uint64_of_int to); cbn [orb];
      [rewrite app_nil_r; reflexivity|].
    destruct (negb (String.eqb (Hash bi) (ParentHash bi1)));
      [rewrite app_nil_r; reflexivity|].
    rewrite IH by lia. rewrite (skipn_nth_error blocks (S i) bi1 Ei1).
    rewrite <- app_assoc. reflexivity.
Qed.

(** From height [ConfirmationNeeded] on, the code promotes what the
    specification says. *)
Lemma validatedBlocksOf_agrees (latest : Z) (blocks : list Block) :
  ConfirmationNeeded <= latest < 2 ^ 64 ->
  (2 <= List.length blocks)%nat ->
  validatedBlocksOf latest blocks = confirmationPass_spec latest blocks.
Proof.
  intros Hlatest Hlen. unfold validatedBlocksOf, confirmationPass_spec.
  destruct (List.length blocks <? 2)%nat eqn:E;
    [apply Nat.ltb_lt in E; lia|].
  rewrite validateLoop_walk by lia.
  rewrite uint64_of_int_of_uint64 by apply u64_range.
  unfold ConfirmationNeeded in *. rewrite u64_small by lia. reflexivity.
Qed.

(** C2 (the code departs from the claim): while the known height is below
    [ConfirmationNeeded], here 0 as [NewIndexer] leaves it, the boundary
    of the claim is negative and its walk stops at the first block,
    promoting nothing; the code computes the boundary in [uint64], where
    it wraps around to the top, hands blocks 10 and 11 to [ConfirmBlocks]
    and the store confirms them. *)
Theorem confirmPass_promotes_below_depth :
  currentLatest scenarioUnknownHeight = 0 /\
  GetUnconfirmedBlocks (repo scenarioUnknownHeight)
  = Ok [linked10; linked11; linked12] /\
  confirmationPass_spec 0 [linked10; linked11; linked12] = [] /\
  safeBoundary 0 = 2 ^ 64 - 10 /\
  validatedBlocksOf 0 [linked10; linked11; linked12] = [linked10; linked11] /\
  calls (snd (confirmPass scenarioUnknownHeight)) =
  [RepoGetUnconfirmedBlocks; RepoConfirmBlocks [linked10; linked11]] /\
  GetUnconfirmedBlocks (repo (snd (confirmPass scenarioUnknownHeight)))
  = Ok [linked12].
Proof.
  split; [reflexivity|]. split; [reflexivity|].
  split; [vm_compute; reflexivity|]. split; [vm_compute; reflexivity|].
  split; [vm_compute; reflexivity|]. split; vm_compute; reflexivity.
Qed.

(** Block 7 is fetched while the store already holds a block 7:
    [CreateBlock] refuses the insert, and the worker reports nothing. *)
Lemma FastWorker_drops_CreateBlock_error_scenario :
  fst (CreateBlock block7 (repo duplicate7))
  = Some "failed to create MySQL record" /\
  fst (fetchAndStoreBlock node7 7 duplicate7) = None /\
  errors (snd (FastWorker (Ok node7) [RecvJob 7 true] duplicate7)) = [] /\
  calls (snd (FastWorker (Ok node7) [RecvJob 7 true] duplicate7)) =
  [ChainGetBlockByNumber 7; RepoCreateBlock block7].
Proof.
  split; [reflexivity|].
  apply (FastWorker_drops_CreateBlock_error node7 7 rawBlock7 duplicate7).
  reflexivity.
Defined.

(** Scenario D: the store misses ["t1"], the node serves it; the first
    call stores and returns it, the second finds it in the store. *)
Lemma GetTransaction_scenario_D :
  fst (GetTransaction opaqueHash "t1" scenarioD) = Ok txA /\
  calls (snd (GetTransaction opaqueHash "t1" scenarioD)) =
  [RepoFindTransaction "t1"; ChainGetTransactionByHash "t1";
   ChainGetTransactionReceipt "t1"; RepoCreateTransaction txA] /\
  repo (snd (GetTransaction opaqueHash "t1" scenarioD)) =
  snd (CreateTransaction txA emptyStore) /\
  fst (GetTransaction opaqueHash "t1"
         (snd (GetTransaction opaqueHash "t1" scenarioD))) = Ok txA /\
  calls (snd (GetTransaction opaqueHash "t1"
                (snd (GetTransaction opaqueHash "t1" scenarioD)))) =
  calls (snd (GetTransaction opaqueHash "t1" scenarioD))
  ++ [RepoFindTransaction "t1"] /\
  repo (snd (GetTransaction opaqueHash "t1"
               (snd (GetTransaction opaqueHash "t1" scenarioD)))) =
  repo (snd (GetTransaction opaqueHash "t1" scenarioD)).
Proof.
  apply (GetTransaction_fetch_then_cached
           opaqueHash "t1" scenarioD rawTxA receiptA); reflexivity.
Defined.

(** Without a [limit] the handler asks the store for one block; with
    [limit=11] it answers 400 and the indexer is as before. *)
Lemma blocksHandler_limit_scenario :
  (DefaultQuery "limit" "1" (mkRequest []) = "1" /\
   calls (snd (blocksHandler decimalAtoi (mkRequest []) duplicate7)) =
   [RepoGetNewBlocks 1]) /\
  (status (fst (blocksHandler decimalAtoi (mkRequest [("limit", "11")])
                              duplicate7)) = 400 /\
   snd (blocksHandler decimalAtoi (mkRequest [("limit", "11")]) duplicate7)
   = duplicate7).
Proof.
  split.
  - destruct (proj1 (blocksHandler_limit decimalAtoi (mkRequest [])
                                         duplicate7)) as (Hdef & Hcalls).
    + intros kv [].
    + split; [exact Hdef|]. apply Hcalls. reflexivity.
  - apply (proj1 (proj2 (blocksHandler_limit
                           decimalAtoi (mkRequest [("limit", "11")])
                           duplicate7))).
    vm_compute. right. reflexivity.
Defined.

(** * Further properties of the code *)

Section SupervisorProperties.

Context {Store : Type} `{Repository Store}.

Lemma u64_negative (z : Z) : - 2 ^ 64 <= z < 0 -> u64 z = z + 2 ^ 64.
Proof.
  intros Hz. unfold u64. symmetry.
  apply Z.mod_unique with (q := -1); lia.
Qed.

Lemma updateLatestNumber_outcome (st : Indexer Store) :
  updateLatestNumber st =
  match GetBlockNumber (ethClient st) with
  | Ok latest =>
      Returned (set_currentLatest latest
                  (set_calls (calls st ++ [ChainGetBlockNumber]) st))
  | Err err =>
      Blocked (Errorf "failed to get latest number on chain, " err)
              (set_calls (calls st ++ [ChainGetBlockNumber]) st)
  end.
Proof.
  unfold updateLatestNumber, chainCall, bind, ret, record.
  cbn [fst snd].
  destruct (GetBlockNumber (ethClient st)); reflexivity.
Qed.

(** X3: when the latest number of the store cannot be read, the pass is
    suspended for ever in its send on [idx.errors]: it does not return,
    whatever the fuel, and the error is never received; at that point the
    store has been asked once, no sender has been started and, even under
    a cancelled context, the channel has not been closed. *)
Theorem makeRoutineJobs_store_error (fuel : nat) (polls : list bool)
        (st : Indexer Store) (err : error) :
  jobs st = [] ->
  GetLatestNumber (repo st) = Err err ->
  exists st1 : Indexer Store,
    makeRoutineJobsOutcome fuel polls st =
    Blocked (Errorf "failed to get latest number in DB, " err) st1 /\
    makeRoutineJobs fuel polls st = None /\
    errors st1 = errors st /\
    senders st1 = senders st /\
    jobsClosed st1 = jobsClosed st /\
    calls st1 = calls st ++ [RepoGetLatestNumber].
Proof.
  intros Hq Herr. unfold makeRoutineJobs.
  rewrite (makeRoutineJobsOutcome_unread fuel polls st err Hq Herr).
  eexists. split; [reflexivity|]. split; [reflexivity|].
  cbn. repeat split; reflexivity.
Qed.

(** X4: bootstrap on a short chain: with an empty store and a known height
    below [IndexLimit], [currentLatest - IndexLimit] wraps around above
    the height, and the pass submits nothing. *)
Theorem makeRoutineJobs_short_chain (fuel : nat) (polls : list bool)
        (st : Indexer Store) :
  jobs st = [] ->
  GetLatestNumber (repo st) = Ok 0 ->
  0 <= currentLatest st < IndexLimit ->
  exists st' : Indexer Store,
    makeRoutineJobs (S fuel) polls st = Some st' /\
    senders st' = senders st /\
    jobsClosed st' = jobsClosed st /\
    errors st' = errors st.
Proof.
  intros Hq Hrepo Hcl.
  rewrite (makeRoutineJobs_read (S fuel) polls st 0 Hq Hrepo).
  unfold firstNumber. cbn [Z.eqb]. unfold IndexLimit in *.
  rewrite u64_negative by lia.
  rewrite addJobsLoop_stop by (cbn [set_calls currentLatest]; lia).
  eexists. split; [reflexivity|]. cbn. repeat split; reflexivity.
Qed.

(** When [currentLatest] is the largest [uint64], the test
    [i <= idx.currentLatest] never fails: with a live context the loop
    does not end, whatever the fuel. *)
Lemma addJobsLoop_never_ends (fuel : nat) :
  forall (i : Z) (st : Indexer Store),
    currentLatest st = 2 ^ 64 - 1 ->
    0 <= i < 2 ^ 64 ->
    addJobsLoop fuel [] i st = None.
Proof.
  induction fuel as [|fuel IH]; intros i st Hcl Hi; [reflexivity|].
  cbn [addJobsLoop tl]. rewrite Hcl.
  destruct (i <=? 2 ^ 64 - 1) eqn:E; [|apply Z.leb_gt in E; lia].
  apply IH; [exact Hcl | apply u64_range].
Qed.

(** X6: when the known height is the largest [uint64], a discovery pass
    on an empty queue with a readable store and a live context does not
    end: it runs out of any fuel. *)
Theorem makeRoutineJobs_never_ends (fuel : nat) (st : Indexer Store)
        (storeLatest : Z) :
  jobs st = [] ->
  GetLatestNumber (repo st) = Ok storeLatest ->
  currentLatest st = 2 ^ 64 - 1 ->
  makeRoutineJobs fuel [] st = None.
Proof.
  intros Hq Hrepo Hcl.
  rewrite (makeRoutineJobs_read fuel [] st storeLatest Hq Hrepo).
  apply addJobsLoop_never_ends; [exact Hcl|].
  unfold firstNumber. destruct (storeLatest =? 0); apply u64_range.
Qed.





(** X1: one firing of the ticker of [Run] on an empty queue.  When the
    node answers, the height is stored, the discovery pass runs on it and
    returns with [firstNumber .. height] submitted in ascending order.
    When the node cannot be reached, the tick is suspended in the send of
    the error: the node has been asked, the store is not read, and no
    pass runs on the height known before. *)
Theorem supervisorTick_range (fuel : nat) (polls : list bool)
        (st : Indexer Store) (storeLatest : Z) :
  jobs st = [] ->
  GetLatestNumber (repo st) = Ok storeLatest ->
  (forall latest,
      GetBlockNumber (ethClient st) = Ok latest ->
      0 <= latest < 2 ^ 64 - 1 ->
      (Z.to_nat latest + 2 <= fuel)%nat ->
      exists st' : Indexer Store,
        tickOutcome fuel [] st = Returned st' /\
        currentLatest st' = latest /\
        senders st' =
        senders st ++ numbersFromTo (firstNumber storeLatest latest) latest /\
        errors st' = errors st) /\
  (forall err,
      GetBlockNumber (ethClient st) = Err err ->
      exists st1 : Indexer Store,
        tickOutcome fuel polls st =
        Blocked (Errorf "failed to get latest number on chain, " err) st1 /\
        calls st1 = calls st ++ [ChainGetBlockNumber] /\
        senders st1 = senders st /\
        currentLatest st1 = currentLatest st /\
        errors st1 = errors st).
Proof.
  intros Hq Hrepo. split.
  - intros latest Hnode Hh Hfuel. unfold tickOutcome.
    rewrite updateLatestNumber_outcome, Hnode.
    set (st1 := set_currentLatest latest
                  (set_calls (calls st ++ [ChainGetBlockNumber]) st)).
    assert (Hq1 : jobs st1 = []) by exact Hq.
    assert (Hrepo1 : GetLatestNumber (repo st1) = Ok storeLatest)
      by exact Hrepo.
    assert (Hh1 : 0 <= currentLatest st1 < 2 ^ 64 - 1) by exact Hh.
    assert (Hfuel1 : (Z.to_nat (currentLatest st1) + 2 <= fuel)%nat)
      by exact Hfuel.
    pose proof (makeRoutineJobs_live fuel st1 storeLatest
                  Hq1 Hrepo1 Hh1 Hfuel1) as Hlive.
    rewrite (makeRoutineJobs_read fuel [] st1 storeLatest Hq1 Hrepo1)
      in Hlive.
    rewrite (makeRoutineJobsOutcome_read fuel [] st1 storeLatest Hq1 Hrepo1).
    rewrite Hlive. eexists. split; [reflexivity|]. cbn.
    repeat split; reflexivity.
  - intros err Hnode. unfold tickOutcome.
    rewrite updateLatestNumber_outcome, Hnode.
    eexists. split; [reflexivity|]. cbn. repeat split; reflexivity.
Qed.

(** X2: while the queue still holds a number, the ticker only refreshes the
    height: the store is not read and nothing is submitted. *)
Theorem supervisorTick_busy (fuel : nat) (polls : list bool)
        (st : Indexer Store) :
  jobs st <> [] ->
  exists st' : Indexer Store,
    supervisorTick fuel polls st = Some st' /\
    senders st' = senders st /\
    jobs st' = jobs st /\
    calls st' = calls st ++ [ChainGetBlockNumber].
Proof.
  intros Hq. unfold supervisorTick, tickOutcome.
  rewrite updateLatestNumber_outcome.
  destruct (GetBlockNumber (ethClient st)) as [latest|err].
  - rewrite makeRoutineJobsOutcome_busy by exact Hq.
    eexists. split; [reflexivity|]. cbn. repeat split; reflexivity.
  - eexists. split; [reflexivity|]. cbn. repeat split; reflexivity.
Qed.

Lemma makeRoutineJobsOutcome_frame (fuel : nat) (polls : list bool)
      (st st' : Indexer Store) :
  reached (makeRoutineJobsOutcome fuel polls st) = Some st' ->
  repo st' = repo st /\ jobs st' = jobs st /\
  jobsCap st' = jobsCap st /\
  exists l, senders st' = senders st ++ l.
Proof.
  intros Hreach.
  destruct (makeRoutineJobsOutcome fuel polls st) as [st1|e st1|] eqn:Hout;
    cbn [reached] in Hreach; [| |discriminate].
  - inversion Hreach; subst st1.
    assert (Hrun : makeRoutineJobs fuel polls st = Some st').
    { unfold makeRoutineJobs. rewrite Hout. reflexivity. }
    apply makeRoutineJobs_frame in Hrun.
    destruct Hrun as (Hj & Hc & Hr & _ & Hl). auto.
  - inversion Hreach; subst st1.
    destruct (jobs st) as [|j q] eqn:Hq.
    + destruct (GetLatestNumber (repo st)) as [repoLatest|err] eqn:Hrepo.
      * rewrite (makeRoutineJobsOutcome_read fuel polls st repoLatest
                   Hq Hrepo) in Hout.
        destruct (addJobsLoop fuel polls
                    (firstNumber repoLatest (currentLatest st))
                    (set_calls (calls st ++ [RepoGetLatestNumber]) st));
          discriminate.
      * rewrite (makeRoutineJobsOutcome_unread fuel polls st err Hq Hrepo)
          in Hout.
        inversion Hout; subst. cbn. rewrite Hq. repeat split.
        exists []. rewrite app_nil_r. reflexivity.
    + rewrite makeRoutineJobsOutcome_busy in Hout
        by (rewrite Hq; discriminate).
      discriminate.
Qed.

Lemma tickOutcome_frame (fuel : nat) (polls : list bool)
      (st st' : Indexer Store) :
  reached (tickOutcome fuel polls st) = Some st' ->
  repo st' = repo st /\ jobs st' = jobs st /\
  jobsCap st' = jobsCap st /\
  exists l, senders st' = senders st ++ l.
Proof.
  unfold tickOutcome. rewrite updateLatestNumber_outcome.
  destruct (GetBlockNumber (ethClient st)) as [latest|err]; intros Hreach.
  - apply makeRoutineJobsOutcome_frame in Hreach. cbn in Hreach.
    exact Hreach.
  - cbn [reached] in Hreach. inversion Hreach; subst st'. cbn.
    repeat split. exists []. rewrite app_nil_r. reflexivity.
Qed.

(** X7: however long it runs, the loop of [Run] never writes to the store and
    never touches the buffer of the queue: it only reads the latest
    number, starts senders and, on cancellation, closes the channel. *)
Theorem RunLoop_frame (fuel : nat) (evs : list RunSelect) :
  forall (st : Indexer Store) (r : WorkerStatus * Indexer Store),
    RunLoop fuel evs st = Some r ->
    repo (snd r) = repo st /\ jobs (snd r) = jobs st /\
    jobsCap (snd r) = jobsCap st /\
    exists l, senders (snd r) = senders st ++ l.
Proof.
  induction evs as [|ev evs IH]; intros st r Hrun; cbn [RunLoop] in Hrun.
  - inversion Hrun; subst r. cbn. repeat split.
    exists []. rewrite app_nil_r. reflexivity.
  - destruct ev as [polls|err|].
    + destruct (tickOutcome fuel polls st) as [st1|e st1|] eqn:Htick;
        [| |discriminate].
      * assert (Hreach : reached (tickOutcome fuel polls st) = Some st1)
          by (rewrite Htick; reflexivity).
        apply tickOutcome_frame in Hreach.
        destruct Hreach as (Hr0 & Hj0 & Hc0 & l1 & Hl0).
        apply IH in Hrun. destruct Hrun as (Hr' & Hj' & Hc' & l2 & Hl2).
        rewrite Hr', Hj', Hc', Hr0, Hj0, Hc0. repeat split.
        exists (l1 ++ l2). rewrite Hl2, Hl0, app_assoc. reflexivity.
      * assert (Hreach : reached (tickOutcome fuel polls st) = Some st1)
          by (rewrite Htick; reflexivity).
        apply tickOutcome_frame in Hreach.
        inversion Hrun; subst r. cbn [snd]. exact Hreach.
    + apply IH in Hrun. exact Hrun.
    + inversion Hrun; subst r. cbn. repeat split.
      exists []. rewrite app_nil_r. reflexivity.
Qed.

End SupervisorProperties.

Section WorkerProperties.

Context {Store : Type} `{Repository Store}.

Ltac exec :=
  unfold repoRead, repoWrite, chainCall;
  unfold bind, ret, gets, record, sendError;
  cbn [fst snd].

(** ** Fetch workers *)

(** What serving one job does to the indexer. *)
Lemma FastWorkerLoop_job (client : Client) (number : Z)
      (evs : list JobsSelect) (st : Indexer Store) :
  FastWorkerLoop client (RecvJob number true :: evs) st =
  FastWorkerLoop client evs
    match GetBlockByNumber client number with
    | Ok blockRaw =>
        set_repo (snd (CreateBlock (blockOfRaw blockRaw) (repo st)))
          (set_calls
             (calls st ++ [ChainGetBlockByNumber number;
                           RepoCreateBlock (blockOfRaw blockRaw)]) st)
    | Err err =>
        set_errors
          (errors st ++
           [Errorf "[FastWorker] failed to fetch block and store, "
                   (Errorf "[FastWorker] failed to get block, " err)])
          (set_calls (calls st ++ [ChainGetBlockByNumber number]) st)
    end.
Proof.
  cbn [FastWorkerLoop negb]. unfold fetchAndStoreBlock. exec.
  destruct (GetBlockByNumber client number) as [blockRaw|err].
  - cbn. rewrite map_id, <- app_assoc. reflexivity.
  - reflexivity.
Qed.


(** X9: a closed channel or a cancelled context ends the worker: what the
    [select] would deliver afterwards is never served. *)
Theorem FastWorkerLoop_stops (client : Client) (ns : list Z)
        (stop : JobsSelect) (evs : list JobsSelect) :
  (stop = JobsCtxDone \/ exists n, stop = RecvJob n false) ->
  forall st : Indexer Store,
    FastWorkerLoop client (received ns ++ stop :: evs) st =
    (Stopped, snd (FastWorkerLoop client (received ns) st)).
Proof.
  intros Hstop. induction ns as [|n ns IH]; intros st.
  - cbn [received map app].
    destruct Hstop as [->|[n ->]]; reflexivity.
  - unfold received. cbn [map app]. fold (received ns).
    rewrite !FastWorkerLoop_job. apply IH.
Qed.

(** ** Confirmation worker *)


Lemma linkedAt_not_stopsAt (boundary : Z) (blocks : list Block) (j : nat) :
  linkedAt boundary blocks j -> stopsAt boundary blocks j -> False.
Proof.
  intros (bj & bj1 & Hj & Hj1 & Hlt & Heq) (cj & cj1 & Hj' & Hj1' & Hstop).
  rewrite Hj in Hj'. rewrite Hj1 in Hj1'.
  inversion Hj'; subst cj. inversion Hj1'; subst cj1.
  destruct Hstop as [Hge|Hne]; [lia | contradiction].
Qed.

Lemma validatedBlocksOf_all_linked (latest : Z) (blocks : list Block) :
  (1 <= List.length blocks)%nat ->
  (forall j, (j < List.length blocks - 1)%nat ->
             linkedAt (safeBoundary latest) blocks j) ->
  validatedBlocksOf latest blocks = removelast blocks.
Proof.
  intros Hlen Hall.
  destruct (validatedBlocksOf_prefix latest blocks Hlen)
    as (i & Hi & Hvs & _ & Hstop).
  rewrite Hvs, removelast_firstn_len.
  destruct (Nat.eq_dec i (List.length blocks - 1)) as [->|Hne].
  - f_equal. lia.
  - exfalso. apply (linkedAt_not_stopsAt (safeBoundary latest) blocks i).
    + apply Hall. lia.
    + apply Hstop. lia.
Qed.

Lemma validatedBlocksOf_stops_at_first (latest : Z) (blocks : list Block) :
  (1 <= List.length blocks)%nat ->
  stopsAt (safeBoundary latest) blocks 0 ->
  validatedBlocksOf latest blocks = [].
Proof.
  intros Hlen Hstop.
  destruct (validatedBlocksOf_prefix latest blocks Hlen)
    as (i & _ & Hvs & Hlink & _).
  rewrite Hvs. destruct i as [|i]; [reflexivity|].
  exfalso. apply (linkedAt_not_stopsAt (safeBoundary latest) blocks 0).
  - apply Hlink. lia.
  - exact Hstop.
Qed.

(** X11: when every unconfirmed block but the last is below the boundary and
    is named as parent by the next one, the pass promotes all the blocks
    it read except the last. *)
Theorem confirmPass_all_linked (st : Indexer Store) (blocks : list Block) :
  GetUnconfirmedBlocks (repo st) = Ok blocks ->
  (2 <= List.length blocks)%nat ->
  (forall j, (j < List.length blocks - 1)%nat ->
             linkedAt (safeBoundary (currentLatest st)) blocks j) ->
  calls (snd (confirmPass st)) =
  calls st ++ [RepoGetUnconfirmedBlocks;
               RepoConfirmBlocks (removelast blocks)].
Proof.
  intros Hread Hlen Hall.
  destruct (confirmPass_long st blocks Hread Hlen) as (Hcalls & _).
  rewrite Hcalls, validatedBlocksOf_all_linked by (lia || assumption).
  reflexivity.
Qed.

(** X12: while the known height is below [ConfirmationNeeded] (as it is until
    the first successful refresh), the boundary wraps around to the top
    of [uint64] and the depth test stops nothing: a hash-linked list of
    blocks is promoted, its last block excepted, whatever their depth. *)
Theorem confirmPass_unknown_height (st : Indexer Store)
        (blocks : list Block) :
  GetUnconfirmedBlocks (repo st) = Ok blocks ->
  (2 <= List.length blocks)%nat ->
  0 <= currentLatest st < ConfirmationNeeded ->
  (forall b, In b blocks -> Number b < 2 ^ 64 - ConfirmationNeeded) ->
  (forall j bj bj1,
      nth_error blocks j = Some bj -> nth_error blocks (S j) = Some bj1 ->
      Hash bj = ParentHash bj1) ->
  calls (snd (confirmPass st)) =
  calls st ++ [RepoGetUnconfirmedBlocks;
               RepoConfirmBlocks (removelast blocks)].
Proof.
  intros Hread Hlen Hcl Hnum Hhash.
  apply confirmPass_all_linked; try assumption.
  intros j Hj.
  destruct (nth_error blocks j) as [bj|] eqn:Ej.
  2:{ apply nth_error_None in Ej. lia. }
  destruct (nth_error blocks (S j)) as [bj1|] eqn:Ej1.
  2:{ apply nth_error_None in Ej1. lia. }
  exists bj, bj1. split; [exact Ej|]. split; [exact Ej1|]. split.
  - unfold safeBoundary, ConfirmationNeeded in *.
    rewrite u64_negative by lia.
    apply nth_error_In in Ej. specialize (Hnum bj Ej). lia.
  - apply (Hhash j); assumption.
Qed.

(** X13: when the walk stops at the very first pair (the lowest unconfirmed
    block is at or above the boundary, or the second block does not name
    it as parent), [ConfirmBlocks] is still called, with no block. *)
Theorem confirmPass_nothing_validated (st : Indexer Store)
        (blocks : list Block) :
  GetUnconfirmedBlocks (repo st) = Ok blocks ->
  (2 <= List.length blocks)%nat ->
  stopsAt (safeBoundary (currentLatest st)) blocks 0 ->
  calls (snd (confirmPass st)) =
  calls st ++ [RepoGetUnconfirmedBlocks; RepoConfirmBlocks []].
Proof.
  intros Hread Hlen Hstop.
  destruct (confirmPass_long st blocks Hread Hlen) as (Hcalls & _).
  rewrite Hcalls, validatedBlocksOf_stops_at_first by (lia || assumption).
  reflexivity.
Qed.

End WorkerProperties.

Section QueryProperties.

Context {Store : Type} `{Repository Store}.

Variable BytesToHashString : list Z -> string.
Variable Atoi : string -> result Z.

Ltac exec :=
  unfold repoRead, repoWrite, chainCall;
  unfold bind, ret, gets, record, sendError;
  cbn [fst snd].

(** ** [GetTransaction] *)

(** X14: the store is asked first, and when it answers (a record, or an error)
    neither the node nor [CreateTransaction] is called. *)
Theorem GetTransaction_store_answers (hash : string) (st : Indexer Store) :
  (forall tx,
      FindTransaction hash (repo st) = Ok (Some tx) ->
      GetTransaction BytesToHashString hash st =
      (Ok tx, set_calls (calls st ++ [RepoFindTransaction hash]) st)) /\
  (forall err,
      FindTransaction hash (repo st) = Err err ->
      GetTransaction BytesToHashString hash st =
      (Err (Errorf "failed to FindTransaction, " err),
       set_calls (calls st ++ [RepoFindTransaction hash]) st)).
Proof.
  split; intros x Hfind; unfold GetTransaction; exec;
    cbn [set_calls repo]; rewrite Hfind; reflexivity.
Qed.

(** X15: after a miss in the store, a failing live fetch ends the call with an
    error and nothing is written: when the transaction cannot be fetched
    its receipt is not asked for, and in both cases [CreateTransaction] is
    not called and the store is as before. *)
Theorem GetTransaction_failed_fetch (hash : string) (st : Indexer Store) :
  FindTransaction hash (repo st) = Ok None ->
  (forall err,
      GetTransactionByHash (ethClient st) hash = Err err ->
      fst (GetTransaction BytesToHashString hash st) =
      Err (Errorf "failed to get transaction from chain, " err) /\
      calls (snd (GetTransaction BytesToHashString hash st)) =
      calls st ++ [RepoFindTransaction hash; ChainGetTransactionByHash hash] /\
      repo (snd (GetTransaction BytesToHashString hash st)) = repo st) /\
  (forall tx err,
      GetTransactionByHash (ethClient st) hash = Ok tx ->
      GetTransactionReceipt (ethClient st) hash = Err err ->
      fst (GetTransaction BytesToHashString hash st) =
      Err (Errorf "failed to get transaction receipt from chain, " err) /\
      calls (snd (GetTransaction BytesToHashString hash st)) =
      calls st ++ [RepoFindTransaction hash; ChainGetTransactionByHash hash;
                   ChainGetTransactionReceipt hash] /\
      repo (snd (GetTransaction BytesToHashString hash st)) = repo st).
Proof.
  intros Hmiss. split.
  - intros err Htx. unfold GetTransaction. exec.
    cbn [set_calls repo ethClient calls]. rewrite Hmiss.
    cbn [fst snd set_calls ethClient calls repo]. rewrite Htx.
    cbn. rewrite <- app_assoc. repeat split; reflexivity.
  - intros tx err Htx Hrc. unfold GetTransaction. exec.
    cbn [set_calls repo ethClient calls]. rewrite Hmiss.
    cbn [fst snd set_calls ethClient calls repo]. rewrite Htx.
    cbn [fst snd set_calls ethClient calls repo]. rewrite Hrc.
    cbn. rewrite <- !app_assoc. repeat split; reflexivity.
Qed.

(** ** [GET /transaction/:hash] *)

Lemma transactionHandler_reply (c : PathRequest) (st : Indexer Store) :
  transactionHandler BytesToHashString c st =
  (match fst (GetTransaction BytesToHashString (Param "hash" c) st) with
   | Ok tx => {| replyStatus := StatusOK; replyBody := PayloadTransaction tx |}
   | Err err =>
       {| replyStatus := StatusInternalServerError;
          replyBody := PayloadMessage (Errorf "error: " err) |}
   end,
   snd (GetTransaction BytesToHashString (Param "hash" c) st)).
Proof.
  unfold transactionHandler. unfold bind at 1.
  destruct (fst (GetTransaction BytesToHashString (Param "hash" c) st));
    reflexivity.
Qed.

(** X16: the answers of the handler along the return paths of
    [GetTransaction]: a transaction held by the store is answered 200
    after one store lookup; a failing store lookup is answered 500; a
    hash that the store does not hold and the node cannot serve is
    answered 500 with the error of the node, and the store is left as it
    was. *)
Theorem transactionHandler_reply_cases (c : PathRequest)
        (st : Indexer Store) :
  (forall tx,
      FindTransaction (Param "hash" c) (repo st) = Ok (Some tx) ->
      transactionHandler BytesToHashString c st =
      ({| replyStatus := StatusOK; replyBody := PayloadTransaction tx |},
       set_calls (calls st ++ [RepoFindTransaction (Param "hash" c)]) st)) /\
  (forall err,
      FindTransaction (Param "hash" c) (repo st) = Err err ->
      transactionHandler BytesToHashString c st =
      ({| replyStatus := StatusInternalServerError;
          replyBody :=
            PayloadMessage
              (Errorf "error: " (Errorf "failed to FindTransaction, " err)) |},
       set_calls (calls st ++ [RepoFindTransaction (Param "hash" c)]) st)) /\
  (forall err,
      FindTransaction (Param "hash" c) (repo st) = Ok None ->
      GetTransactionByHash (ethClient st) (Param "hash" c) = Err err ->
      fst (transactionHandler BytesToHashString c st) =
      {| replyStatus := StatusInternalServerError;
         replyBody :=
           PayloadMessage
             (Errorf "error: "
                     (Errorf "failed to get transaction from chain, " err)) |}
      /\
      repo (snd (transactionHandler BytesToHashString c st)) = repo st).
Proof.
  rewrite transactionHandler_reply.
  split; [|split].
  - intros tx Hfind. unfold GetTransaction. exec.
    cbn [set_calls repo]. rewrite Hfind. reflexivity.
  - intros err Hfind. unfold GetTransaction. exec.
    cbn [set_calls repo]. rewrite Hfind. reflexivity.
  - intros err Hmiss Htx. unfold GetTransaction. exec.
    cbn [set_calls repo ethClient calls]. rewrite Hmiss.
    cbn [fst snd set_calls ethClient calls repo]. rewrite Htx.
    split; reflexivity.
Qed.

(** ** [GET /blocks] and [GET /blocks/:id] *)

(** X17: with a limit between 1 and 10 the handler answers 500 with the
    store's error when [GetNewBlocks] fails, and otherwise 200 with the
    blocks of the store, in the same order, stripped of their
    transactions. *)
Theorem blocksHandler_reply (c : Request) (st : Indexer Store) (limit : Z) :
  Atoi (DefaultQuery "limit" "1" c) = Ok limit ->
  1 <= limit <= 10 ->
  fst (blocksHandler Atoi c st) =
  match snd (GetNewBlocks limit (repo st)) with
  | Some err =>
      {| status := StatusInternalServerError;
         body := Message (Errorf "error: " err) |}
  | None =>
      {| status := StatusOK;
         body := BlocksBody
                   (map clearTransactions
                        (fst (GetNewBlocks limit (repo st)))) |}
  end /\
  map Number (map clearTransactions (fst (GetNewBlocks limit (repo st)))) =
  map Number (fst (GetNewBlocks limit (repo st))) /\
  (forall b,
      In b (map clearTransactions (fst (GetNewBlocks limit (repo st)))) ->
      Transactions b = []).
Proof.
  intros Hparse Hrange. split; [|split].
  - unfold blocksHandler. rewrite Hparse.
    apply limit_in_range in Hrange. rewrite Hrange.
    unfold IndexerGetNewBlocks. exec. cbn [set_calls repo].
    destruct (snd (GetNewBlocks limit (repo st))); reflexivity.
  - rewrite map_map. reflexivity.
  - intros b Hin. apply in_map_iff in Hin. destruct Hin as (x & <- & _).
    reflexivity.
Qed.

(** X18: an id that is not a number, or is negative, is answered 400 without
    any call; otherwise the store is asked once for the block of that
    number, a failure of the store is answered 500, and any other answer
    of the store (no block included) is answered 200. *)
Theorem blockHandler_reply (c : PathRequest) (st : Indexer Store) :
  ((match Atoi (Param "id" c) with
    | Err _ => True
    | Ok id => id < 0
    end) ->
   blockHandler Atoi c st =
   ({| replyStatus := StatusBadRequest;
       replyBody := PayloadMessage "invalid ID" |}, st)) /\
  (forall id,
      Atoi (Param "id" c) = Ok id ->
      0 <= id < 2 ^ 64 ->
      calls (snd (blockHandler Atoi c st)) = calls st ++ [RepoFindBlock id] /\
      repo (snd (blockHandler Atoi c st)) = repo st /\
      fst (blockHandler Atoi c st) =
      match FindBlock id (repo st) with
      | Err err =>
          {| replyStatus := StatusInternalServerError;
             replyBody :=
               PayloadMessage
                 (Errorf "error: "
                         (Errorf "failed to get block from repo, " err)) |}
      | Ok block =>
          {| replyStatus := StatusOK; replyBody := PayloadBlock block |}
      end).
Proof.
  unfold blockHandler. split.
  - destruct (Atoi (Param "id" c)) as [id|err]; [|reflexivity].
    intros Hneg. destruct (id <? 0) eqn:E; [reflexivity|].
    apply Z.ltb_ge in E. lia.
  - intros id Hparse Hid. rewrite Hparse.
    destruct (id <? 0) eqn:E; [apply Z.ltb_lt in E; lia|].
    unfold uint64_of_int. rewrite Z.mod_small by exact Hid.
    unfold IndexerGetBlock. exec. cbn [set_calls repo].
    destruct (FindBlock id (repo st)); cbn; repeat split; reflexivity.
Qed.

End QueryProperties.

(** ** The in-memory store of the first version *)

Lemma mapGet_mapSet (k k' : Z) (v : RawBlock) (m : InMemoryStore.t) :
  InMemoryStore.mapGet k' (InMemoryStore.mapSet k v m) =
  if k' =? k then Some v else InMemoryStore.mapGet k' m.
Proof.
  induction m as [|[k0 v0] m IH];
    cbn [InMemoryStore.mapSet InMemoryStore.mapGet].
  - destruct (Z.eqb_spec k k'), (Z.eqb_spec k' k); congruence.
  - destruct (Z.eqb_spec k0 k) as [E0|E0]; cbn [InMemoryStore.mapGet].
    + destruct (Z.eqb_spec k k'), (Z.eqb_spec k' k), (Z.eqb_spec k0 k');
        congruence.
    + rewrite IH.
      destruct (Z.eqb_spec k0 k'), (Z.eqb_spec k' k); congruence.
Qed.

(** X19: [StoreBlock] never fails; afterwards [GetBlock] returns the stored
    block under its number, whatever was there before, and what it
    returned before under every other number. *)
Theorem GetBlock_StoreBlock (block : RawBlock) (s : InMemoryStore.t)
        (number : Z) :
  fst (InMemoryStore.StoreBlock block s) = None /\
  InMemoryStore.GetBlock number (snd (InMemoryStore.StoreBlock block s)) =
  if number =? rawNumber block then Some block
  else InMemoryStore.GetBlock number s.
Proof.
  split; [reflexivity|].
  unfold InMemoryStore.GetBlock, InMemoryStore.StoreBlock. cbn [snd].
  rewrite mapGet_mapSet.
  destruct (number =? rawNumber block); [reflexivity|].
  destruct (InMemoryStore.mapGet number s); reflexivity.
Qed.

(** X20: the number of blocks held grows by one when the number is new and is
    unchanged when a block of that number is replaced; the numbers held
    stay distinct. *)
Theorem len_StoreBlock (block : RawBlock) (s : InMemoryStore.t) :
  InMemoryStore.len (snd (InMemoryStore.StoreBlock block s)) =
  match InMemoryStore.GetBlock (rawNumber block) s with
  | Some _ => InMemoryStore.len s
  | None => S (InMemoryStore.len s)
  end /\
  (NoDup (map fst s) ->
   NoDup (map fst (snd (InMemoryStore.StoreBlock block s)))).
Proof.
  unfold InMemoryStore.len, InMemoryStore.GetBlock, InMemoryStore.StoreBlock.
  cbn [snd]. generalize (rawNumber block) as k. intros k. split.
  - induction s as [|[k0 v0] s IH];
      cbn [InMemoryStore.mapSet InMemoryStore.mapGet]; [reflexivity|].
    destruct (k0 =? k); [reflexivity|]. cbn [List.length]. rewrite IH.
    destruct (InMemoryStore.mapGet k s); reflexivity.
  - assert (Hkeys : forall x (m : InMemoryStore.t),
               In x (map fst (InMemoryStore.mapSet k block m)) ->
               x = k \/ In x (map fst m)).
    { intros x m. induction m as [|[k1 v1] m IHm];
        cbn [InMemoryStore.mapSet map fst In].
      - intros [Hx|[]]. left. congruence.
      - destruct (k1 =? k) eqn:E1; cbn [map fst In].
        + intros [Hx|Hx]; [left; congruence | right; right; exact Hx].
        + intros [Hx|Hx]; [right; left; exact Hx|].
          destruct (IHm Hx) as [Hk|Hin]; [left; exact Hk|].
          right; right; exact Hin. }
    induction s as [|[k0 v0] s IH]; cbn [InMemoryStore.mapSet map fst].
    + intros _. constructor; [intros [] | constructor].
    + intros Hnd. inversion Hnd as [|x l Hnotin Hnd']; subst.
      destruct (k0 =? k) eqn:E0; cbn [map fst].
      * apply Z.eqb_eq in E0. subst k0. constructor; assumption.
      * constructor; [|apply IH; exact Hnd'].
        intros Hin. destruct (Hkeys k0 s Hin) as [Hk|Hin'].
        -- subst k0. rewrite Z.eqb_refl in E0. discriminate.
        -- contradiction.
Qed.

(** * Further runs *)

Lemma makeRoutineJobs_store_error_run :
  exists st1 : Indexer DownStore,
    makeRoutineJobsOutcome 0 [true] scenarioDown =
    Blocked "failed to get latest number in DB, db is down" st1 /\
    makeRoutineJobs 0 [true] scenarioDown = None /\
    errors st1 = [] /\
    senders st1 = [] /\
    jobsClosed st1 = false /\
    calls st1 = [RepoGetLatestNumber].
Proof.
  exact (makeRoutineJobs_store_error 0 [true] scenarioDown "db is down"
           eq_refl eq_refl).
Defined.

Lemma makeRoutineJobs_short_chain_run :
  exists st' : Indexer MemStore,
    makeRoutineJobs 1 [] scenarioShortChain = Some st' /\
    senders st' = [] /\ jobsClosed st' = false /\ errors st' = [].
Proof.
  apply (makeRoutineJobs_short_chain 0 [] scenarioShortChain).
  - reflexivity.
  - reflexivity.
  - cbn. unfold IndexLimit. lia.
Defined.

Lemma makeRoutineJobs_never_ends_run :
  makeRoutineJobs 1000 [] scenarioLastHeight = None.
Proof.
  apply (makeRoutineJobs_never_ends 1000 scenarioLastHeight 450);
    reflexivity.
Defined.


Lemma supervisorTick_range_run :
  (exists st' : Indexer MemStore,
      tickOutcome 600 [] (NewIndexer (nodeAt 460) (storeWith [block450]))
      = Returned st' /\
      currentLatest st' = 460 /\
      senders st' = numbersFromTo 451 460 /\
      errors st' = []) /\
  (exists st1 : Indexer MemStore,
      tickOutcome 600 [] scenarioStale =
      Blocked "failed to get latest number on chain, connection refused" st1
      /\
      calls st1 = [ChainGetBlockNumber] /\
      senders st1 = [] /\
      currentLatest st1 = 500 /\
      errors st1 = []).
Proof.
  split.
  - destruct (supervisorTick_range
                600 [] (NewIndexer (nodeAt 460) (storeWith [block450])) 450)
      as [Hlive _].
    + reflexivity.
    + reflexivity.
    + destruct (Hlive 460) as (st' & Htick & Hcl & Hsenders & Herrors).
      * reflexivity.
      * lia.
      * lia.
      * exists st'. split; [exact Htick|]. split; [exact Hcl|].
        split; [rewrite Hsenders; vm_compute; reflexivity | exact Herrors].
  - destruct (supervisorTick_range 600 [] scenarioStale 450) as [_ Hdead].
    + reflexivity.
    + reflexivity.
    + apply (Hdead "connection refused"). reflexivity.
Defined.

Lemma supervisorTick_busy_run :
  exists st' : Indexer MemStore,
    supervisorTick 0 [] (set_jobs [399] scenarioA) = Some st' /\
    senders st' = [] /\
    jobs st' = [399] /\
    calls st' = [ChainGetBlockNumber].
Proof.
  apply (supervisorTick_busy 0 [] (set_jobs [399] scenarioA)).
  discriminate.
Defined.

Lemma RunLoop_frame_run :
  exists r : WorkerStatus * Indexer MemStore,
    RunLoop 200 [RunTick []; RunError "boom"; RunCtxDone; RunTick []]
            scenarioA = Some r /\
    (repo (snd r) = repo scenarioA /\ jobs (snd r) = jobs scenarioA /\
     jobsCap (snd r) = jobsCap scenarioA /\
     exists l, senders (snd r) = senders scenarioA ++ l).
Proof.
  destruct (RunLoop 200 [RunTick []; RunError "boom"; RunCtxDone; RunTick []]
                    scenarioA) as [r|] eqn:Hrun.
  - exists r. split; [reflexivity|].
    exact (RunLoop_frame
             200 [RunTick []; RunError "boom"; RunCtxDone; RunTick []]
             scenarioA r Hrun).
  - exfalso. vm_compute in Hrun. discriminate Hrun.
Defined.

Lemma FastWorkerLoop_stops_run :
  FastWorkerLoop node7 (received [7; 8] ++ JobsCtxDone :: [RecvJob 9 true])
                 scenarioD =
  (Stopped, snd (FastWorkerLoop node7 (received [7; 8]) scenarioD)).
Proof.
  apply (FastWorkerLoop_stops node7 [7; 8] JobsCtxDone [RecvJob 9 true]).
  left. reflexivity.
Defined.


Lemma confirmPass_all_linked_run :
  calls (snd (confirmPass scenarioLinked)) =
  [RepoGetUnconfirmedBlocks; RepoConfirmBlocks [linked10; linked11]].
Proof.
  apply (confirmPass_all_linked scenarioLinked [linked10; linked11; linked12]).
  - reflexivity.
  - cbn. lia.
  - intros j Hj. cbn in Hj.
    destruct j as [|[|j]]; [| |lia].
    + exists linked10, linked11. cbn. repeat split; reflexivity.
    + exists linked11, linked12. cbn. repeat split; reflexivity.
Defined.

Lemma confirmPass_unknown_height_run :
  currentLatest scenarioUnknownHeight = 0 /\
  calls (snd (confirmPass scenarioUnknownHeight)) =
  [RepoGetUnconfirmedBlocks; RepoConfirmBlocks [linked10; linked11]].
Proof.
  split; [reflexivity|].
  apply (confirmPass_unknown_height
           scenarioUnknownHeight [linked10; linked11; linked12]).
  - reflexivity.
  - cbn. lia.
  - cbn. unfold ConfirmationNeeded. lia.
  - intros b [<-|[<-|[<-|[]]]]; cbn; unfold ConfirmationNeeded; lia.
  - intros j bj bj1 Hj Hj1.
    destruct j as [|[|[|j]]]; cbn in Hj, Hj1;
      try discriminate; inversion Hj; inversion Hj1; reflexivity.
Defined.

Lemma confirmPass_nothing_validated_run :
  calls (snd (confirmPass scenarioTooRecent)) =
  [RepoGetUnconfirmedBlocks; RepoConfirmBlocks []].
Proof.
  apply (confirmPass_nothing_validated
           scenarioTooRecent [linked10; linked11; linked12]).
  - reflexivity.
  - cbn. lia.
  - exists linked10, linked11. split; [reflexivity|].
    split; [reflexivity|]. left. cbn. lia.
Defined.

Lemma GetTransaction_store_answers_run :
  GetTransaction opaqueHash "t1" scenarioCached =
  (Ok txA, set_calls [RepoFindTransaction "t1"] scenarioCached) /\
  GetTransaction opaqueHash "t1" scenarioDown =
  (Err "failed to FindTransaction, db is down",
   set_calls [RepoFindTransaction "t1"] scenarioDown).
Proof.
  split.
  - apply (proj1 (GetTransaction_store_answers opaqueHash "t1" scenarioCached)).
    reflexivity.
  - apply (proj2 (GetTransaction_store_answers opaqueHash "t1" scenarioDown)).
    reflexivity.
Defined.

Lemma GetTransaction_failed_fetch_run :
  (fst (GetTransaction opaqueHash "t1" scenarioOffline) =
   Err "failed to get transaction from chain, connection refused" /\
   calls (snd (GetTransaction opaqueHash "t1" scenarioOffline)) =
   [RepoFindTransaction "t1"; ChainGetTransactionByHash "t1"] /\
   repo (snd (GetTransaction opaqueHash "t1" scenarioOffline)) = emptyStore) /\
  (fst (GetTransaction opaqueHash "t1" scenarioNoReceipt) =
   Err "failed to get transaction receipt from chain, not found" /\
   calls (snd (GetTransaction opaqueHash "t1" scenarioNoReceipt)) =
   [RepoFindTransaction "t1"; ChainGetTransactionByHash "t1";
    ChainGetTransactionReceipt "t1"] /\
   repo (snd (GetTransaction opaqueHash "t1" scenarioNoReceipt)) = emptyStore).
Proof.
  split.
  - destruct (GetTransaction_failed_fetch opaqueHash "t1" scenarioOffline)
      as [Htx _]; [reflexivity|].
    apply (Htx "connection refused"). reflexivity.
  - destruct (GetTransaction_failed_fetch opaqueHash "t1" scenarioNoReceipt)
      as [_ Hrc]; [reflexivity|].
    apply (Hrc rawTxA "not found"); reflexivity.
Defined.

Lemma transactionHandler_reply_cases_run :
  transactionHandler opaqueHash (mkPathRequest [("hash", "t1")])
                     scenarioCached =
  ({| replyStatus := 200; replyBody := PayloadTransaction txA |},
   set_calls [RepoFindTransaction "t1"] scenarioCached) /\
  transactionHandler opaqueHash (mkPathRequest [("hash", "t1")])
                     scenarioDown =
  ({| replyStatus := 500;
      replyBody :=
        PayloadMessage "error: failed to FindTransaction, db is down" |},
   set_calls [RepoFindTransaction "t1"] scenarioDown) /\
  (fst (transactionHandler opaqueHash (mkPathRequest [("hash", "t1")])
                           scenarioOffline) =
   {| replyStatus := 500;
      replyBody :=
        PayloadMessage
          "error: failed to get transaction from chain, connection refused" |}
   /\
   repo (snd (transactionHandler opaqueHash (mkPathRequest [("hash", "t1")])
                                 scenarioOffline)) = emptyStore).
Proof.
  split; [|split].
  - apply (proj1 (transactionHandler_reply_cases
                    opaqueHash (mkPathRequest [("hash", "t1")])
                    scenarioCached)).
    reflexivity.
  - apply (proj1 (proj2 (transactionHandler_reply_cases
                           opaqueHash (mkPathRequest [("hash", "t1")])
                           scenarioDown))).
    reflexivity.
  - apply (proj2 (proj2 (transactionHandler_reply_cases
                           opaqueHash (mkPathRequest [("hash", "t1")])
                           scenarioOffline)) "connection refused");
      reflexivity.
Defined.

Lemma blocksHandler_reply_run :
  fst (blocksHandler decimalAtoi (mkRequest [("limit", "2")]) duplicate7) =
  {| status := 200;
     body := BlocksBody [mkBlock 7 "h7" 70 "h6" [] false] |} /\
  fst (blocksHandler decimalAtoi (mkRequest [("limit", "2")]) scenarioDown) =
  {| status := 500; body := Message "error: db is down" |}.
Proof.
  split.
  - destruct (blocksHandler_reply
                decimalAtoi (mkRequest [("limit", "2")]) duplicate7 2)
      as (Hreply & _).
    + reflexivity.
    + lia.
    + exact Hreply.
  - destruct (blocksHandler_reply
                decimalAtoi (mkRequest [("limit", "2")]) scenarioDown 2)
      as (Hreply & _).
    + reflexivity.
    + lia.
    + exact Hreply.
Defined.

Lemma blockHandler_reply_run :
  blockHandler decimalAtoi (mkPathRequest [("id", "-1")]) duplicate7 =
  ({| replyStatus := 400; replyBody := PayloadMessage "invalid ID" |},
   duplicate7) /\
  blockHandler decimalAtoi (mkPathRequest [("id", "seven")]) duplicate7 =
  ({| replyStatus := 400; replyBody := PayloadMessage "invalid ID" |},
   duplicate7) /\
  (calls (snd (blockHandler decimalAtoi (mkPathRequest [("id", "7")])
                            duplicate7)) = [RepoFindBlock 7] /\
   repo (snd (blockHandler decimalAtoi (mkPathRequest [("id", "7")])
                           duplicate7)) = storeWith [block7] /\
   fst (blockHandler decimalAtoi (mkPathRequest [("id", "7")]) duplicate7) =
   {| replyStatus := 200; replyBody := PayloadBlock (Some block7) |}) /\
  fst (blockHandler decimalAtoi (mkPathRequest [("id", "8")]) duplicate7) =
  {| replyStatus := 200; replyBody := PayloadBlock None |}.
Proof.
  split; [|split; [|split]].
  - apply (proj1 (blockHandler_reply
                    decimalAtoi (mkPathRequest [("id", "-1")]) duplicate7)).
    vm_compute. reflexivity.
  - apply (proj1 (blockHandler_reply
                    decimalAtoi (mkPathRequest [("id", "seven")]) duplicate7)).
    vm_compute. exact I.
  - destruct (proj2 (blockHandler_reply
                       decimalAtoi (mkPathRequest [("id", "7")]) duplicate7) 7)
      as (Hcalls & Hrepo & Hreply).
    + reflexivity.
    + lia.
    + split; [exact Hcalls|]. split; [exact Hrepo | exact Hreply].
  - destruct (proj2 (blockHandler_reply
                       decimalAtoi (mkPathRequest [("id", "8")]) duplicate7) 8)
      as (_ & _ & Hreply).
    + reflexivity.
    + lia.
    + exact Hreply.
Defined.

Lemma len_StoreBlock_run :
  InMemoryStore.len
    (snd (InMemoryStore.StoreBlock
            rawBlock7 (snd (InMemoryStore.StoreBlock
                              rawBlock7 InMemoryStore.NewInMemoryStore)))) = 1%nat /\
  NoDup (map fst (snd (InMemoryStore.StoreBlock
                         rawBlock7 InMemoryStore.NewInMemoryStore))).
Proof.
  split.
  - apply (proj1 (len_StoreBlock
                    rawBlock7
                    (snd (InMemoryStore.StoreBlock
                            rawBlock7 InMemoryStore.NewInMemoryStore)))).
  - apply (proj2 (len_StoreBlock rawBlock7 InMemoryStore.NewInMemoryStore)).
    constructor.
Defined.
